(** * sdc-hagfish-watcher: the usage watcher of [lib/watcher.js]

    A shallow embedding of the [Watcher] object: the aligned scheduler, the
    three collectors (network, instances, disk), the join/transform stage and
    the cycle that chains them, followed by the properties proved about them.

    Conventions of the embedding.
    - A JavaScript object used as a dictionary is a [gmap string _]; its keys
      are enumerated ([Object.keys], [for .. in]) in the order of
      [map_to_list].  Properties inherited from [Object.prototype] are not
      modelled.
    - JavaScript numbers are exact: integers are [Z]; of the two fractional
      computations the scheduler is carried out in milliseconds and the
      counter start in [Q], so no rounding of doubles is modelled.
    - The operating-system accessors ([common.*], [zutil.*], [kstat], [zfs])
      are the fields of an environment record [Env]; a callback-style accessor
      is a function that returns either the error or the value it hands to its
      callback, and its callback runs before the next step of the stage; an
      accessor that throws returns the message of the exception.
    - [async.waterfall] and [async.each] are modelled by their contract: the
      tasks (the items) are run in order, an error handed to the callback
      skips the remaining tasks and reaches the final handler, an exception
      thrown by a task is caught by nobody in this file.
    - Of the fields of the watcher the record [Watcher] holds those that a
      cycle reads or writes; the logger is seen through the events recorded. *)

From Stdlib Require Import ZArith QArith Lia Ascii.
From stdpp Require Import gmap strings list fin_maps.

Local Open Scope Z_scope.

(** ** Strings *)

Module Str.

(** [a.slice(0, n)] *)
Definition slice0 (n : nat) (a : string) : string := String.substring 0 n a.

(** [a.slice(1)] *)
Definition slice1 (a : string) : string :=
  match a with
  | EmptyString => EmptyString
  | String _ t => t
  end.

(** [a.indexOf('/')]: [None] stands for -1. *)
Fixpoint indexOf (c : ascii) (a : string) : option nat :=
  match a with
  | EmptyString => None
  | String x t => if Ascii.eqb x c then Some 0%nat else S <$> indexOf c t
  end.

(** [a.slice(0, i)] for the [i] that [indexOf] returned: a negative end
    counts from the end of the string. *)
Definition slice_to (i : option nat) (a : string) : string :=
  match i with
  | Some n => slice0 n a
  | None => slice0 (String.length a - 1) a
  end.

(** [a.replace(/^\//, '')] *)
Definition strip_leading_slash (a : string) : string :=
  match a with
  | String "/" t => t
  | _ => a
  end.

Definition is_digit (c : ascii) : bool :=
  let n := nat_of_ascii c in (48 <=? n)%nat && (n <=? 57)%nat.

Definition digit_val (c : ascii) : Z := Z.of_nat (nat_of_ascii c) - 48.

(** The longest run of decimal digits at the head of a string, and the rest. *)
Fixpoint span_digits (s : string) : string * string :=
  match s with
  | EmptyString => (EmptyString, EmptyString)
  | String c t =>
      if is_digit c
      then let '(d, r) := span_digits t in (String c d, r)
      else (EmptyString, s)
  end.

Fixpoint decimal_from (acc : Z) (s : string) : Z :=
  match s with
  | EmptyString => acc
  | String c t => decimal_from (acc * 10 + digit_val c) t
  end.

(** [Number(ds)] for a string of decimal digits. *)
Definition decimal (ds : string) : Z := decimal_from 0 ds.

Fixpoint all_digits (s : string) : Prop :=
  match s with
  | EmptyString => True
  | String c t => is_digit c = true ∧ all_digits t
  end.

Definition to_lower (c : ascii) : ascii :=
  let n := nat_of_ascii c in
  if (65 <=? n)%nat && (n <=? 90)%nat then ascii_of_nat (n + 32) else c.

(** Does [p] stand at the head of [s], letter case ignored? *)
Fixpoint prefix_ci (p s : string) : bool :=
  match p, s with
  | EmptyString, _ => true
  | String a p', String b s' => Ascii.eqb (to_lower a) (to_lower b) && prefix_ci p' s'
  | String _ _, EmptyString => false
  end.

(** [s.match(/p/i)] for a pattern [p] without metacharacters. *)
Fixpoint contains_ci (p s : string) : bool :=
  prefix_ci p s ||
  match s with
  | EmptyString => false
  | String _ t => contains_ci p t
  end.

End Str.

(** [startsWith(a, str)]: [a.slice(0, str.length) === str]. *)
Definition startsWith (a str : string) : bool :=
  String.eqb (Str.slice0 (String.length str) a) str.

(** ** The link-name pattern [zoneRE]: a z, one or more digits (first
    group), an underscore, then any run of characters (second group) *)

Module ZoneRE.

Definition is_line_terminator (c : ascii) : bool :=
  let n := nat_of_ascii c in (n =? 10)%nat || (n =? 13)%nat.

(** The second group: as many characters as possible, none of them a line
    terminator. *)
Fixpoint dot_star (s : string) : string :=
  match s with
  | EmptyString => EmptyString
  | String c t => if is_line_terminator c then EmptyString else String c (dot_star t)
  end.

(** The pattern tried at the head of [s].  [\d+] is greedy; giving digits
    back cannot help, since the character wanted next is ['_'] and the
    characters given back are digits. *)
Definition at_head (s : string) : option (string * string) :=
  match s with
  | String c t =>
      if Ascii.eqb c "z" then
        match Str.span_digits t with
        | (String d ds, String u rest) =>
            if Ascii.eqb u "_" then Some (String d ds, dot_star rest) else None
        | _ => None
        end
      else None
  | EmptyString => None
  end.

(** [name.match(zoneRE)]: the leftmost position at which the pattern
    matches; the result is the pair of captures [(m[1], m[2])]. *)
Fixpoint exec (s : string) : option (string * string) :=
  match at_head s with
  | Some m => Some m
  | None =>
      match s with
      | EmptyString => None
      | String _ t => exec t
      end
  end.

End ZoneRE.

(** ** Dates *)

Module JSDate.

(** [new Date(t)] keeps the integral part of [t] (milliseconds since the
    epoch), rounding towards zero. *)
Definition time_value (t : Q) : Z := Z.quot (Qnum t) (Zpos (Qden t)).

Definition digit_char (d : Z) : ascii := ascii_of_nat (Z.to_nat (d mod 10) + 48).

(** The last [w] decimal digits of [n], zero padded. *)
Fixpoint pad (w : nat) (n : Z) : string :=
  match w with
  | O => EmptyString
  | S w' => pad w' (n / 10) +:+ String (digit_char n) EmptyString
  end.

(** Year, month and day of the proleptic Gregorian calendar for a count
    of days since 1970-01-01. *)
Definition civil (days : Z) : Z * Z * Z :=
  let z := days + 719468 in
  let era := z / 146097 in
  let doe := z - era * 146097 in
  let yoe := (doe - doe / 1460 + doe / 36524 - doe / 146096) / 365 in
  let doy := doe - (365 * yoe + yoe / 4 - yoe / 100) in
  let mp := (5 * doy + 2) / 153 in
  let d := doy - (153 * mp + 2) / 5 + 1 in
  let m := if mp <? 10 then mp + 3 else mp - 9 in
  let y := yoe + era * 400 + (if m <=? 2 then 1 else 0) in
  (y, m, d).

Definition year_string (y : Z) : string :=
  if (0 <=? y) && (y <=? 9999) then pad 4 y
  else (if y <? 0 then "-" else "+") +:+ pad 6 (Z.abs y).

(** [date.toISOString()] for the date whose time value is [ms]. *)
Definition toISOString (ms : Z) : string :=
  let days := ms / 86400000 in
  let t := ms mod 86400000 in
  let '(y, m, d) := civil days in
  year_string y +:+ "-" +:+ pad 2 m +:+ "-" +:+ pad 2 d +:+ "T" +:+
  pad 2 (t / 3600000) +:+ ":" +:+ pad 2 (t / 60000 mod 60) +:+ ":" +:+
  pad 2 (t / 1000 mod 60) +:+ "." +:+ pad 3 (t mod 1000) +:+ "Z".

End JSDate.

(** ** The scheduler ([startPeriodicUpdates]) *)

Module Scheduler.


Definition offset : Z := 5.

(** The delay handed to [setTimeout], in milliseconds, when the clock
    ([Date.now()]) reads [now] milliseconds.  Every quantity of
    [scheduleConfigurationCheck] is held here in milliseconds, which keeps
    [Date.now() / 1000] exact; [%] is the remainder of the truncated
    division. *)
Definition delay (configurationScheduledSeconds now : Z) : Z :=
  let secs := offset * 1000 + now in
  let mod_ := Z.rem secs (configurationScheduledSeconds * 1000) in
  let dsecs := configurationScheduledSeconds * 1000 - mod_ + offset * 1000 in
  dsecs.

(** The time at which the timer fires, in milliseconds since the epoch. *)
Definition fire_time (configurationScheduledSeconds now : Z) : Z :=
  now + delay configurationScheduledSeconds now.

End Scheduler.

(** ** Data *)

(** A value of a dataset property as the program holds it: the text that
    [zfs get -p] printed, or the number [parseInt] made of it. *)
Inductive jsval : Type :=
  | VStr (s : string)
  | VNum (n : Z)
  | VNaN.

Global Instance jsval_eq_dec : EqDecision jsval.
Proof. solve_decision. Defined.

(** One entry of the zone listing ([common.vmListFromFile]). *)
Record ZoneEntry : Type := {
  z_name : string;
  z_uuid : string;
  z_dataset : string
}.

(** The config document of an instance ([common.vmGet]); of its fields the
    watcher reads [name], [zonepath] and [attributes.alias]. *)
Record VmConfig : Type := {
  cfg_name : string;
  cfg_zonepath : string;
  cfg_alias : option string
}.

(** An entry of the registry [self.vms].  [vm_status] and [vm_config] are
    [None] while the property is undefined. *)
Record VmObj : Type := {
  vm_uuid : string;
  vm_os_uuid : string;
  vm_timestamp : string;
  vm_status : option string;
  vm_config : option VmConfig
}.

(** One [kstat] record of the module [link]. *)
Record LinkStat : Type := {
  link_name : string;
  link_crtime : Z;
  link_obytes64 : Z;
  link_rbytes64 : Z
}.

Record NetSample : Type := {
  sent_bytes : Z;
  received_bytes : Z;
  counter_start : string
}.

Abbreviation LinkMap := (gmap string NetSample).
Abbreviation NetworkMap := (gmap string (gmap string NetSample)).
Abbreviation Props := (gmap string jsval).
Abbreviation Datasets := (gmap string (gmap string jsval)).
Abbreviation DiskMap := (gmap string (gmap string (gmap string jsval))).

(** The record built by [transformVm] and emitted as ['vm-update']. *)
Record Snapshot : Type := {
  snap_zonename : string;
  snap_zonepath : string;
  snap_uuid : string;
  snap_os_uuid : string;
  snap_status : option string;
  snap_config : VmConfig;
  snap_network_usage : option LinkMap;
  snap_disk_usage : option Datasets;
  snap_timestamp : string;
  snap_v : string
}.

(** The fields of the [Watcher] object that the cycle reads or writes. *)
Record Watcher : Type := {
  vms : gmap string VmObj;
  network : NetworkMap;
  disk : DiskMap;
  vmDatasetsToPath : gmap string string;
  vmPathsToZone : gmap string string;
  vmsToDataset : gmap string string
}.

(** [new Watcher(config)] *)
Definition Watcher_new : Watcher :=
  {| vms := ∅; network := ∅; disk := ∅;
     vmDatasetsToPath := ∅; vmPathsToZone := ∅; vmsToDataset := ∅ |}.

Definition set_vms (f : gmap string VmObj → gmap string VmObj) (w : Watcher) : Watcher :=
  {| vms := f (vms w); network := network w; disk := disk w;
     vmDatasetsToPath := vmDatasetsToPath w; vmPathsToZone := vmPathsToZone w;
     vmsToDataset := vmsToDataset w |}.

Definition set_network (n : NetworkMap) (w : Watcher) : Watcher :=
  {| vms := vms w; network := n; disk := disk w;
     vmDatasetsToPath := vmDatasetsToPath w; vmPathsToZone := vmPathsToZone w;
     vmsToDataset := vmsToDataset w |}.

Definition set_disk (f : DiskMap → DiskMap) (w : Watcher) : Watcher :=
  {| vms := vms w; network := network w; disk := f (disk w);
     vmDatasetsToPath := vmDatasetsToPath w; vmPathsToZone := vmPathsToZone w;
     vmsToDataset := vmsToDataset w |}.

Definition set_tables (z : ZoneEntry) (dataset : string) (w : Watcher) : Watcher :=
  {| vms := vms w; network := network w; disk := disk w;
     vmDatasetsToPath := <[dataset := z_dataset z]> (vmDatasetsToPath w);
     vmPathsToZone := <[z_dataset z := z_name z]> (vmPathsToZone w);
     vmsToDataset := <[z_name z := dataset]> (vmsToDataset w) |}.

(** ** The accessors *)

(** What an accessor answers: the error it reports (or throws), or a value. *)
Inductive answer (A : Type) : Type :=
  | Error (msg : string)
  | Value (a : A).
Arguments Error {A} msg.
Arguments Value {A} a.

(** The world a cycle runs in.
    - [bootTime]: what [common.bootTime] hands to its callback, seconds.
    - [kstat_read]: the statistics [reader.read()] returns, in array order.
    - [getZoneById]: [zutil.getZoneById(id).name], or the exception.
    - [vmListFromFile]: the listing handed to the callback of
      [common.vmListFromFile] (the source ignores its error argument).
    - [getZoneState]: [zutil.getZoneState(name)], or the exception it throws.
    - [vmGet]: what [common.vmGet] hands to its callback.
    - [zfs_get]: what [zfs.get] hands to its callback for the property list.
    - [clock]: the time, in milliseconds, that [new Date()] reads while the
      zone of that name is visited.
    - [base64_decode]: [new Buffer(s, 'base64').toString('utf8')]. *)
Record Env : Type := {
  bootTime : answer Z;
  kstat_read : list LinkStat;
  getZoneById : Z → answer string;
  vmListFromFile : list ZoneEntry;
  getZoneState : string → answer string;
  vmGet : string → answer VmConfig;
  zfs_get : answer Datasets;
  clock : string → Z;
  base64_decode : string → string
}.

(** ** Effects *)

(** What a stage does to the outside: the accessor calls and the warning. *)
Inductive Effect : Type :=
  | CallBootTime
  | CallKstatRead
  | CallGetZoneById (id : Z)
  | CallVmListFromFile
  | CallGetZoneState (name : string)
  | CallVmGet (uuid : string)
  | CallZfsGet
  | LogWarn (zone : string).

(** How a piece of the pipeline ends: it calls its callback without error
    ([Ok]), it calls it with an error ([Err]), or it throws ([Thrown]). *)
Inductive result (A : Type) : Type :=
  | Ok (a : A)
  | Err (e : string)
  | Thrown (e : string).
Arguments Ok {A} a.
Arguments Err {A} e.
Arguments Thrown {A} e.

(** A computation on the watcher that records events of type [Ev]. *)
Definition M (Ev A : Type) : Type := Watcher → result A * Watcher * list Ev.

Definition ret {Ev A} (a : A) : M Ev A := fun w => (Ok a, w, []).

Definition bind {Ev A B} (m : M Ev A) (k : A → M Ev B) : M Ev B :=
  fun w =>
    match m w with
    | (Ok a, w1, t1) => let '(r, w2, t2) := k a w1 in (r, w2, t1 ++ t2)
    | (Err e, w1, t1) => (Err e, w1, t1)
    | (Thrown e, w1, t1) => (Thrown e, w1, t1)
    end.

Definition tell {Ev} (e : Ev) : M Ev unit := fun w => (Ok tt, w, [e]).
Definition fail {Ev A} (e : string) : M Ev A := fun w => (Err e, w, []).
Definition throw {Ev A} (e : string) : M Ev A := fun w => (Thrown e, w, []).
Definition read {Ev A} (f : Watcher → A) : M Ev A := fun w => (Ok (f w), w, []).
Definition modify {Ev} (f : Watcher → Watcher) : M Ev unit := fun w => (Ok tt, f w, []).

Global Instance M_ret {Ev} : MRet (M Ev) := fun A a => ret a.
Global Instance M_bind {Ev} : MBind (M Ev) := fun A B k m => bind m k.

(** A loop whose body updates a local variable of type [S]. *)
Fixpoint foldM {Ev A S} (body : S → A → M Ev S) (l : list A) (s : S) : M Ev S :=
  match l with
  | [] => ret s
  | x :: l' => s' ← body s x; foldM body l' s'
  end.

(** [async.each(arr, iterator, ..)] by its contract: the iterator is applied
    to every item, in order, and an item completes once (also where the
    source calls the callback of an item a second time, as [onVm] does after
    the warning of its [catch] branch); an error that an item reports does
    not stop the items after it, and the first error is the one delivered; an
    exception leaves the loop. *)
Fixpoint each {Ev A} (iterator : A → M Ev unit) (arr : list A) : M Ev unit :=
  match arr with
  | [] => ret tt
  | x :: arr' =>
      fun w =>
        match iterator x w with
        | (Ok _, w1, t1) => let '(r, w2, t2) := each iterator arr' w1 in (r, w2, t1 ++ t2)
        | (Err e, w1, t1) =>
            let '(r, w2, t2) := each iterator arr' w1 in
            (match r with Thrown e' => Thrown e' | _ => Err e end, w2, t1 ++ t2)
        | (Thrown e, w1, t1) => (Thrown e, w1, t1)
        end
  end.

(** [Object.keys(o)] *)
Definition keys {V} (o : gmap string V) : list string := (map_to_list o).*1.

(** ** The network usage collector ([updateNetworkUsage]) *)

(** The time value of [new Date(bootTimestamp * 1000 + Number(crtime) /
    1000000000.0)], in milliseconds. *)
Definition counter_start_ms (bootTimestamp crtime : Z) : Z :=
  JSDate.time_value (inject_Z bootTimestamp * 1000 + inject_Z crtime / 1000000000)%Q.

(** One turn of the [while (i--)] loop over the statistics. *)
Definition scan_link (env : Env) (bootTimestamp : Z)
    (usage : NetworkMap) (link : LinkStat) : M Effect NetworkMap :=
  match ZoneRE.exec (link_name link) with
  | None => mret usage
  | Some (zoneid, linkname) =>
      tell (CallGetZoneById (Str.decimal zoneid));;
      match getZoneById env (Str.decimal zoneid) with
      | Error e => throw e
      | Value zonename =>
          let usage1 :=
            match usage !! zonename with
            | None => <[zonename := ∅]> usage
            | Some _ => usage
            end in
          let counter_start := JSDate.toISOString
            (counter_start_ms bootTimestamp (link_crtime link)) in
          mret (<[zonename :=
                  <[linkname := {| sent_bytes := link_obytes64 link;
                                   received_bytes := link_rbytes64 link;
                                   counter_start := counter_start |}]>
                    (default ∅ (usage1 !! zonename))]> usage1)
      end
  end.

(** The statistics are visited from the last to the first. *)
Definition scan_links (env : Env) (bootTimestamp : Z) (stats : list LinkStat)
    : M Effect NetworkMap :=
  foldM (scan_link env bootTimestamp) (reverse stats) ∅.

Definition updateNetworkUsage (env : Env) : M Effect unit :=
  tell CallBootTime;;
  match bootTime env with
  | Error e => fail e
  | Value bootTimestamp =>
      tell CallKstatRead;;
      usage ← scan_links env bootTimestamp (kstat_read env);
      modify (set_network usage)
  end.

(** ** The instance enumerator ([updateVirtualMachines]) *)

Definition no_such_zone (message : string) : bool :=
  Str.contains_ci "no such zone configured" message.

(** [vm.config.attributes.alias], decoded when it is a non-empty string. *)
Definition decode_alias (env : Env) (c : VmConfig) : VmConfig :=
  match cfg_alias c with
  | Some (String a t) =>
      {| cfg_name := cfg_name c; cfg_zonepath := cfg_zonepath c;
         cfg_alias := Some (base64_decode env (String a t)) |}
  | _ => c
  end.

Definition with_status (status : string) (vm : VmObj) : VmObj :=
  {| vm_uuid := vm_uuid vm; vm_os_uuid := vm_os_uuid vm;
     vm_timestamp := vm_timestamp vm; vm_status := Some status;
     vm_config := vm_config vm |}.

Definition with_config (c : VmConfig) (vm : VmObj) : VmObj :=
  {| vm_uuid := vm_uuid vm; vm_os_uuid := vm_os_uuid vm;
     vm_timestamp := vm_timestamp vm; vm_status := vm_status vm;
     vm_config := Some c |}.

(** The iterator of the enumeration.  [vm] is the object stored under
    [self.vms[z.name]]; writing a property of [vm] is an [alter] of that
    entry.  After the warning of the [catch] branch the function does not
    return: control reaches [common.vmGet] as on the other path. *)
Definition onVm (env : Env) (z : ZoneEntry) : M Effect unit :=
  if String.eqb (z_name z) "global" then mret tt
  else
    let vm := {| vm_uuid := z_name z; vm_os_uuid := z_uuid z;
                 vm_timestamp := JSDate.toISOString (clock env (z_name z));
                 vm_status := None; vm_config := None |} in
    modify (set_vms <[z_name z := vm]>);;
    tell (CallGetZoneState (vm_uuid vm));;
    match getZoneState env (vm_uuid vm) with
    | Value status => modify (set_vms (alter (with_status status) (z_name z)))
    | Error message =>
        if no_such_zone message then tell (LogWarn (vm_uuid vm))
        else throw message
    end;;
    tell (CallVmGet (vm_uuid vm));;
    match vmGet env (vm_uuid vm) with
    | Error error => fail error
    | Value vmrec =>
        modify (set_vms (alter (with_config (decode_alias env vmrec)) (z_name z)));;
        modify (set_tables z (Str.strip_leading_slash (z_dataset z)))
    end.

Definition updateVirtualMachines (env : Env) : M Effect unit :=
  tell CallVmListFromFile;;
  each (onVm env) (vmListFromFile env).

(** ** The disk usage collector ([updateDisk]) *)

Definition numKeys : list string :=
  ["used"; "available"; "referenced"; "quota"; "volsize"].

Definition is_space (c : ascii) : bool :=
  let n := nat_of_ascii c in
  (n =? 32)%nat || ((9 <=? n)%nat && (n <=? 13)%nat).

Fixpoint skip_space (s : string) : string :=
  match s with
  | String c t => if is_space c then skip_space t else s
  | EmptyString => s
  end.

(** [parseInt(v, 10)]: blanks, an optional sign, then the longest run of
    decimal digits; no digit gives [NaN].  A number is first printed, which
    gives its own digits back. *)
Definition parseInt (v : jsval) : jsval :=
  match v with
  | VNum n => VNum n
  | VNaN => VNaN
  | VStr s =>
      let t := skip_space s in
      let '(negative, body) :=
        match t with
        | String c t' =>
            if Ascii.eqb c "-" then (true, t')
            else if Ascii.eqb c "+" then (false, t')
            else (false, t)
        | EmptyString => (false, t)
        end in
      match Str.span_digits body with
      | (EmptyString, _) => VNaN
      | (ds, _) => VNum (if negative then - Str.decimal ds else Str.decimal ds)
      end
  end.

(** The body of the [for (var k in ..)] loop of [add]. *)
Definition coerce_key (o : Props) (k : string) : Props :=
  match o !! k with
  | Some v =>
      if bool_decide (v ≠ VStr "-") && bool_decide (k ∈ numKeys)
      then <[k := parseInt v]> o
      else o
  | None => o
  end.

(** What [add] leaves in the property object of a dataset. *)
Definition coerce_props (o : Props) : Props := foldl coerce_key o (keys o).

(** [add(d)]: the object [datasets[d]] is stored under
    [self.disk[uuid][d]] and its numeric properties are parsed in place, so
    the update shows through [datasets] too. *)
Definition add (uuid d : string) (st : DiskMap * Datasets) : DiskMap * Datasets :=
  let '(dk, datasets) := st in
  match datasets !! d with
  | Some o =>
      let o' := coerce_props o in
      (<[uuid := <[d := o']> (default ∅ (dk !! uuid))]> dk, <[d := o']> datasets)
  | None => st
  end.

(** [vm.config.zonepath.slice(1)] *)
Definition zonepath_of (c : VmConfig) : string := Str.slice1 (cfg_zonepath c).

(** [zonepath.slice(0, zonepath.indexOf('/'))] *)
Definition pool_of (c : VmConfig) : string :=
  let zonepath := zonepath_of c in
  Str.slice_to (Str.indexOf "/" zonepath) zonepath.

(** One turn of the [for (var d in datasets)] loop for the instance [vm];
    [None] when [vm.config] is undefined, where the source throws. *)
Definition match_dataset (uuid : string) (vm : VmObj) (st : DiskMap * Datasets)
    (d : string) : option (DiskMap * Datasets) :=
  match vm_config vm with
  | None => None
  | Some c =>
      let zonepath := zonepath_of c in
      let pool := pool_of c in
      let st1 := if startsWith d zonepath then add uuid d st else st in
      let st2 := if startsWith d (pool +:+ "/cores/" +:+ vm_uuid vm)
                 then add uuid d st1 else st1 in
      Some st2
  end.

Fixpoint match_datasets (uuid : string) (vm : VmObj) (ds : list string)
    (st : DiskMap * Datasets) : DiskMap * Datasets * bool :=
  match ds with
  | [] => (st, true)
  | d :: ds' =>
      match match_dataset uuid vm st d with
      | Some st' => match_datasets uuid vm ds' st'
      | None => (st, false)
      end
  end.

Definition undefined_config : string :=
  "TypeError: Cannot read property of undefined".

(** The iterator of the disk collector for the instance [uuid]. *)
Definition disk_of_vm (datasets : Datasets) (uuid : string) : M Effect Datasets :=
  fun w =>
    match vms w !! uuid with
    | None => (Ok datasets, w, [])  (* cannot be: [uuid] is a key of [self.vms] *)
    | Some vm =>
        let dk := match disk w !! uuid with
                  | None => <[uuid := ∅]> (disk w)
                  | Some _ => disk w
                  end in
        let '(dk', datasets', finished) :=
          match_datasets uuid vm (keys datasets) (dk, datasets) in
        (if finished then Ok datasets' else Thrown undefined_config,
         set_disk (fun _ => dk') w, [])
    end.

(** A failure of [zfs.get] skips the matching; the final function of the
    inner waterfall takes no argument and calls [callback()] either way. *)
Definition updateDisk (env : Env) : M Effect unit :=
  tell CallZfsGet;;
  match zfs_get env with
  | Error _ => mret tt
  | Value props =>
      uuids ← read (fun w => keys (vms w));
      foldM disk_of_vm uuids props;;
      mret tt
  end.

(** ** The join ([transform], [transformVm]) *)

Definition transformVm (vmObj : VmObj) : M Effect Snapshot :=
  match vm_config vmObj with
  | None => throw undefined_config
  | Some c =>
      net ← read network;
      dk ← read disk;
      mret {| snap_zonename := cfg_name c;
              snap_zonepath := cfg_zonepath c;
              snap_uuid := cfg_name c;
              snap_os_uuid := vm_os_uuid vmObj;
              snap_status := vm_status vmObj;
              snap_config := c;
              snap_network_usage := net !! cfg_name c;
              snap_disk_usage := dk !! cfg_name c;
              snap_timestamp := vm_timestamp vmObj;
              snap_v := "1" |}
  end.

Definition transform_one (out : gmap string Snapshot) (vm : string)
    : M Effect (gmap string Snapshot) :=
  o ← read (fun w => vms w !! vm);
  match o with
  | None => mret out
  | Some vmObj => v ← transformVm vmObj; mret (<[snap_uuid v := v]> out)
  end.

Definition transform : M Effect (gmap string Snapshot) :=
  uuids ← read (fun w => keys (vms w));
  foldM transform_one uuids ∅.

(** ** The cycle ([gatherStateAllZones]) *)

Inductive Stage : Type := Network | Enumerate | Disk | Transform.

Global Instance Stage_eq_dec : EqDecision Stage.
Proof. solve_decision. Defined.

(** What a cycle does, in order: the effects of its stages, the call by
    which a stage hands over to the next one ([Completed]), the events
    emitted, and the two log lines of the final handler. *)
Inductive CycleEvent : Type :=
  | During (s : Stage) (e : Effect)
  | Completed (s : Stage)
  | VmUpdate (snap : Snapshot)
  | LogError (err : string)
  | LogInfo.

(** A task of the waterfall. *)
Definition stage {A} (s : Stage) (m : M Effect A) : M CycleEvent A :=
  fun w =>
    let '(r, w', t) := m w in
    (r, w', (During s <$> t) ++ match r with Ok _ => [Completed s] | _ => [] end).

Definition emit_all (out : gmap string Snapshot) : M CycleEvent unit :=
  fun w => (Ok tt, w, VmUpdate <$> (map_to_list out).*2).

Definition pipeline (env : Env) : M CycleEvent unit :=
  stage Network (updateNetworkUsage env);;
  stage Enumerate (updateVirtualMachines env);;
  stage Disk (updateDisk env);;
  out ← stage Transform transform;
  emit_all out.

(** The final handler logs the error, if any, and the duration; an exception
    thrown by a task never reaches it. *)
Definition gatherStateAllZones (env : Env) (w : Watcher) : Watcher * list CycleEvent :=
  match pipeline env w with
  | (Ok _, w', t) => (w', t ++ [LogInfo])
  | (Err e, w', t) => (w', t ++ [LogError e; LogInfo])
  | (Thrown _, w', t) => (w', t)
  end.

(** ** What the claims are compared with *)

(** The counter start as the specification words it: host boot time
    (seconds) plus the creation offset of the link (nanoseconds), as an
    absolute time, here in milliseconds. *)
Definition counter_start_ms_spec (bootTimestamp crtime : Z) : Z :=
  JSDate.time_value (inject_Z bootTimestamp * 1000 + inject_Z crtime / 1000000)%Q.

(** The shape [z<zoneid>_<linkname>], found somewhere in a name: a ['z'], a
    non-empty run of decimal digits, an underscore. *)
Definition has_zone_link (name : string) : Prop :=
  ∃ pre zoneid rest,
    name = pre +:+ String "z" (zoneid +:+ String "_" rest) ∧
    zoneid ≠ EmptyString ∧ Str.all_digits zoneid.

(** The sample the scan stores for a matched statistic. *)
Definition sample_of (bootTimestamp : Z) (link : LinkStat) : NetSample :=
  {| sent_bytes := link_obytes64 link;
     received_bytes := link_rbytes64 link;
     counter_start :=
       JSDate.toISOString (counter_start_ms bootTimestamp (link_crtime link)) |}.

(** The sample stored under an instance and a link name, if any. *)
Definition sample_at (usage : NetworkMap) (zonename linkname : string) : option NetSample :=
  usage !! zonename ≫= (.!! linkname).

(** What [add] makes of the value [v] of the property [k]. *)
Definition coerce_value (k : string) (v : jsval) : jsval :=
  if bool_decide (v ≠ VStr "-") && bool_decide (k ∈ numKeys) then parseInt v else v.

(** Does the disk collector attach the dataset [d] to the instance [vm]? *)
Definition attaches (vm : VmObj) (d : string) : bool :=
  match vm_config vm with
  | Some c => startsWith d (zonepath_of c)
              || startsWith d (pool_of c +:+ "/cores/" +:+ vm_uuid vm)
  | None => false
  end.

(** The properties stored for a dataset under an instance, if any. *)
Definition disk_entry (dk : DiskMap) (uuid d : string) : option Props :=
  dk !! uuid ≫= (.!! d).

(** The listing as the loop holds it while it runs: every property object
    is the one [zfs.get] returned, or that object after [add] went over it. *)
Definition mirrors (props datasets : Datasets) : Prop :=
  ∀ d, datasets !! d = props !! d ∨ datasets !! d = coerce_props <$> props !! d.

(** The entry of a dataset [d] after a pass that attaches it when [hit]. *)
Definition entry_after (props : Datasets) (old : option Props) (hit : bool) (d : string)
    : option Props :=
  if hit then
    match props !! d with
    | Some o => Some (coerce_props o)
    | None => old
    end
  else old.

(** Does the disk collector attach [d] to the registry entry [uuid]? *)
Definition attached_by (registry : gmap string VmObj) (uuid d : string) : bool :=
  match registry !! uuid with
  | Some vm => attaches vm d
  | None => false
  end.

(** The snapshots a cycle emitted, in order. *)
Definition emitted (t : list CycleEvent) : list Snapshot :=
  omap (fun e => match e with VmUpdate s => Some s | _ => None end) t.







(** A computation keeps the relation [R] between the watcher it starts
    from and the one it leaves, however it ends. *)
Definition preserves {Ev A} (R : Watcher → Watcher → Prop) (m : M Ev A) : Prop :=
  ∀ w, R w (m w).1.2.

(** Nothing is taken away: the registry keeps its entries, every instance
    keeps the datasets attached to it, the network map is the same. *)
Definition grows (w w' : Watcher) : Prop :=
  (∀ uuid, is_Some (vms w !! uuid) → is_Some (vms w' !! uuid)) ∧
  (∀ uuid d, is_Some (disk_entry (disk w) uuid d) →
             is_Some (disk_entry (disk w') uuid d)) ∧
  network w' = network w.

(** The registry entry of [uuid] is not written. *)
Definition untouched (uuid : string) (w w' : Watcher) : Prop :=
  vms w' !! uuid = vms w !! uuid.

(** The snapshot that [transformVm] builds for a registry entry with the
    config [c]. *)
Definition snapshot_of (w : Watcher) (vmObj : VmObj) (c : VmConfig) : Snapshot :=
  {| snap_zonename := cfg_name c;
     snap_zonepath := cfg_zonepath c;
     snap_uuid := cfg_name c;
     snap_os_uuid := vm_os_uuid vmObj;
     snap_status := vm_status vmObj;
     snap_config := c;
     snap_network_usage := network w !! cfg_name c;
     snap_disk_usage := disk w !! cfg_name c;
     snap_timestamp := vm_timestamp vmObj;
     snap_v := "1" |}.

(** ** Sample worlds *)

Module Sample.

Definition cfg (name : string) : VmConfig :=
  {| cfg_name := name; cfg_zonepath := "/pool0/zones/" +:+ name; cfg_alias := None |}.

Definition zone (name : string) : ZoneEntry :=
  {| z_name := name; z_uuid := "os-" +:+ name; z_dataset := "/pool0/zones/" +:+ name |}.

Definition global_zone : ZoneEntry :=
  {| z_name := "global"; z_uuid := "os-global"; z_dataset := "/" |}.

Definition props (name used quota : string) : Props :=
  list_to_map [("name", VStr name); ("used", VStr used); ("available", VStr "-");
               ("referenced", VStr "2048"); ("type", VStr "filesystem");
               ("mountpoint", VStr "-"); ("quota", VStr quota);
               ("origin", VStr "-"); ("volsize", VStr "-")].

Definition datasets : Datasets :=
  list_to_map [("pool0", props "pool0" "900" "0");
               ("pool0/zones/a", props "pool0/zones/a" "1024" "10240");
               ("pool0/cores/a", props "pool0/cores/a" "7" "-");
               ("pool0/zones/b", props "pool0/zones/b" "512" "0")].

Definition link (name : string) (crtime : Z) : LinkStat :=
  {| link_name := name; link_crtime := crtime;
     link_obytes64 := 10; link_rbytes64 := 20 |}.

Definition zone_names (id : Z) : answer string :=
  if id =? 1 then Value "a"
  else if id =? 2 then Value "b"
  else Error "getzonenamebyid: Invalid argument".

(** Two running zones beside the global one; nothing fails. *)
Definition quiet : Env :=
  {| bootTime := Value 1000000000;
     kstat_read := [link "e1000g0" 3000000000; link "z1_net0" 5000000000];
     getZoneById := zone_names;
     vmListFromFile := [global_zone; zone "a"; zone "b"];
     getZoneState := fun _ => Value "running";
     vmGet := fun name => Value (cfg name);
     zfs_get := Value datasets;
     clock := fun _ => 1000000060000;
     base64_decode := fun s => s |}.

(** The watcher of the quiet world after the first two stages of its
    first cycle, and after the third. *)
Definition enumerated : Watcher :=
  (updateVirtualMachines quiet (updateNetworkUsage quiet Watcher_new).1.2).1.2.

Definition collected : Watcher := (updateDisk quiet enumerated).1.2.

Definition vm_a : VmObj :=
  {| vm_uuid := "a"; vm_os_uuid := "os-a";
     vm_timestamp := "2001-09-09T01:47:40.000Z";
     vm_status := Some "running"; vm_config := Some (cfg "a") |}.

(** Zone [a] is destroyed after the listing was read: its state lookup
    throws; its config is still found, or not ([config_found]). *)
Definition destroyed (config_found : bool) : Env :=
  {| bootTime := bootTime quiet;
     kstat_read := kstat_read quiet;
     getZoneById := zone_names;
     vmListFromFile := [global_zone; zone "a"; zone "b"];
     getZoneState := fun name =>
       if String.eqb name "a" then Error "zone_get_state: No such zone configured"
       else Value "running";
     vmGet := fun name =>
       if String.eqb name "a" && negb config_found then Error "zone a not found"
       else Value (cfg name);
     zfs_get := Value datasets;
     clock := clock quiet;
     base64_decode := base64_decode quiet |}.

(** Zone 2 is destroyed between the read of the statistics and the
    resolution of its id. *)
Definition unresolved : Env :=
  {| bootTime := bootTime quiet;
     kstat_read := [link "z1_net0" 5000000000; link "z2_net0" 6000000000];
     getZoneById := fun id => if id =? 1 then Value "a"
                              else Error "getzonenamebyid: Invalid argument";
     vmListFromFile := [global_zone; zone "a"];
     getZoneState := getZoneState quiet;
     vmGet := vmGet quiet;
     zfs_get := Value datasets;
     clock := clock quiet;
     base64_decode := base64_decode quiet |}.

(** The next cycle: zone [a] is gone from the listing, from the
    statistics and from the datasets. *)
Definition later : Env :=
  {| bootTime := bootTime quiet;
     kstat_read := [link "e1000g0" 3000000000];
     getZoneById := zone_names;
     vmListFromFile := [global_zone; zone "b"];
     getZoneState := getZoneState quiet;
     vmGet := vmGet quiet;
     zfs_get := Value (delete "pool0/cores/a" (delete "pool0/zones/a" datasets));
     clock := fun _ => 1000000120000;
     base64_decode := base64_decode quiet |}.

(** The boot time cannot be read. *)
Definition no_boot_time : Env :=
  {| bootTime := Error "kstat: boot_time unavailable";
     kstat_read := kstat_read quiet;
     getZoneById := zone_names;
     vmListFromFile := vmListFromFile quiet;
     getZoneState := getZoneState quiet;
     vmGet := vmGet quiet;
     zfs_get := zfs_get quiet;
     clock := clock quiet;
     base64_decode := base64_decode quiet |}.


(** The state of zone [b] cannot be read, for a reason other than its
    destruction. *)
Definition broken_state : Env :=
  {| bootTime := bootTime quiet;
     kstat_read := kstat_read quiet;
     getZoneById := zone_names;
     vmListFromFile := vmListFromFile quiet;
     getZoneState := fun name =>
       if String.eqb name "b" then Error "zone_get_state: Permission denied"
       else Value "running";
     vmGet := vmGet quiet;
     zfs_get := zfs_get quiet;
     clock := clock quiet;
     base64_decode := base64_decode quiet |}.

(** Zones [a] and [ab]: the root path of the first is a prefix of that of
    the second. *)
Definition crowded : Env :=
  {| bootTime := bootTime quiet;
     kstat_read := kstat_read quiet;
     getZoneById := zone_names;
     vmListFromFile := [global_zone; zone "a"; zone "ab"];
     getZoneState := getZoneState quiet;
     vmGet := vmGet quiet;
     zfs_get := Value (<["pool0/zones/ab" := props "pool0/zones/ab" "64" "0"]> datasets);
     clock := clock quiet;
     base64_decode := base64_decode quiet |}.

(** The watcher of the crowded world before and after its first disk
    collection. *)
Definition crowded_enumerated : Watcher :=
  (updateVirtualMachines crowded (updateNetworkUsage crowded Watcher_new).1.2).1.2.

Definition crowded_collected : Watcher := (updateDisk crowded crowded_enumerated).1.2.

(** What the first cycle of [destroyed false] leaves: an entry for [a]
    without status and without config. *)
Definition stuck : Watcher := (gatherStateAllZones (destroyed false) Watcher_new).1.

Definition vm_stuck : VmObj :=
  {| vm_uuid := "a"; vm_os_uuid := "os-a";
     vm_timestamp := "2001-09-09T01:47:40.000Z";
     vm_status := None; vm_config := None |}.

(** The snapshots that the transform returns in the quiet world after the
    first disk collection. *)
Definition joined : gmap string Snapshot :=
  match (transform collected).1.1 with
  | Ok out => out
  | _ => ∅
  end.

End Sample.

(** * Properties *)

(** Closes an equation between closed terms by evaluating both sides. *)
Ltac evaluate :=
  match goal with
  | |- ?a = ?b => vm_cast_no_check (@eq_refl _ b)
  end.

(** ** The runtime functions on known values *)

Example toISOString_epoch : JSDate.toISOString 0 = "1970-01-01T00:00:00.000Z".
Proof. reflexivity. Qed.

Example toISOString_billion : JSDate.toISOString 1000000000000 = "2001-09-09T01:46:40.000Z".
Proof. reflexivity. Qed.

Example toISOString_leap : JSDate.toISOString 1709164799999 = "2024-02-28T23:59:59.999Z".
Proof. reflexivity. Qed.

Example zoneRE_ex1 : ZoneRE.exec "z12_net0" = Some ("12", "net0").
Proof. reflexivity. Qed.

Example zoneRE_ex2 : ZoneRE.exec "e1000g0" = None.
Proof. reflexivity. Qed.

Example zoneRE_ex3 : ZoneRE.exec "zz3z4_a_b" = Some ("4", "a_b").
Proof. reflexivity. Qed.

Example startsWith_ex : startsWith "pool0/zones/abc/data" "pool0/zones/abc" = true.
Proof. reflexivity. Qed.

(** ** The scheduler *)

Section SchedulerFacts.


(** The fire time is the multiple of the interval that follows the
    truncated quotient of [now + offset] by the interval. *)
Lemma fire_time_multiple (interval now : Z) :
  Scheduler.fire_time interval now =
  interval * 1000 * (Z.quot (Scheduler.offset * 1000 + now) (interval * 1000) + 1).
Proof.
  unfold Scheduler.fire_time, Scheduler.delay.
  pose proof (Z.quot_rem' (Scheduler.offset * 1000 + now) (interval * 1000)) as E.
  lia.
Qed.





End SchedulerFacts.

(** ** The link-name pattern *)

Section ZoneREFacts.

Lemma span_digits_app (s : string) :
  ∀ a b, Str.span_digits s = (a, b) → s = a +:+ b ∧ Str.all_digits a.
Proof.
  induction s as [|c t IH]; intros a b E; simpl in E.
  - injection E as <- <-. done.
  - destruct (Str.is_digit c) eqn:Hc.
    + destruct (Str.span_digits t) as [d r] eqn:Et.
      injection E as <- <-. destruct (IH d r eq_refl) as [-> Hd].
      simpl. done.
    + injection E as <- <-. done.
Qed.

Lemma span_digits_underscore (zoneid rest : string) :
  Str.all_digits zoneid →
  Str.span_digits (zoneid +:+ String "_" rest) = (zoneid, String "_" rest).
Proof.
  induction zoneid as [|c t IH]; intros Hd; simpl.
  - reflexivity.
  - destruct Hd as [-> Ht]. by rewrite (IH Ht).
Qed.

Lemma at_head_Some (s zoneid linkname : string) :
  ZoneRE.at_head s = Some (zoneid, linkname) →
  ∃ rest, s = String "z" (zoneid +:+ String "_" rest) ∧
          zoneid ≠ EmptyString ∧ Str.all_digits zoneid ∧
          linkname = ZoneRE.dot_star rest.
Proof.
  unfold ZoneRE.at_head. destruct s as [|c t]; [done|].
  destruct (Ascii.eqb_spec c "z") as [->|]; [|done].
  destruct (Str.span_digits t) as [a b] eqn:Et.
  destruct a as [|d ds]; [done|]. destruct b as [|u rest]; [done|].
  destruct (Ascii.eqb_spec u "_") as [->|]; [|done].
  intros [= <- <-]. apply span_digits_app in Et as [-> Hd].
  exists rest. done.
Qed.

Lemma at_head_shape (zoneid rest : string) :
  zoneid ≠ EmptyString → Str.all_digits zoneid →
  ZoneRE.at_head (String "z" (zoneid +:+ String "_" rest))
  = Some (zoneid, ZoneRE.dot_star rest).
Proof.
  intros Hne Hd. unfold ZoneRE.at_head.
  rewrite Ascii.eqb_refl, (span_digits_underscore _ _ Hd).
  destruct zoneid; [done|]. by rewrite Ascii.eqb_refl.
Qed.

Lemma exec_cons (c : ascii) (t : string) :
  ZoneRE.exec (String c t) =
  match ZoneRE.at_head (String c t) with
  | Some m => Some m
  | None => ZoneRE.exec t
  end.
Proof. reflexivity. Qed.

Lemma exec_Some (name zoneid linkname : string) :
  ZoneRE.exec name = Some (zoneid, linkname) →
  ∃ pre rest, name = pre +:+ String "z" (zoneid +:+ String "_" rest) ∧
              zoneid ≠ EmptyString ∧ Str.all_digits zoneid ∧
              linkname = ZoneRE.dot_star rest.
Proof.
  induction name as [|c t IH].
  - done.
  - rewrite exec_cons.
    destruct (ZoneRE.at_head (String c t)) as [[a b]|] eqn:Eh.
    + intros [= -> ->]. apply at_head_Some in Eh as (rest & E & ?).
      exists EmptyString, rest. done.
    + intros E. destruct (IH E) as (pre & rest & -> & ?).
      exists (String c pre), rest. done.
Qed.

(** The pattern is a search: [exec] finds a match exactly in the names
    that hold the shape somewhere. *)
Lemma exec_is_Some (name : string) :
  is_Some (ZoneRE.exec name) ↔ has_zone_link name.
Proof.
  split.
  - intros [[zoneid linkname] E].
    apply exec_Some in E as (pre & rest & E & Hne & Hd & _).
    by exists pre, zoneid, rest.
  - intros (pre & zoneid & rest & -> & Hne & Hd).
    induction pre as [|c pre IH].
    + change (EmptyString +:+ ?x) with x.
      rewrite exec_cons, (at_head_shape zoneid rest Hne Hd). by eexists.
    + change (String c pre +:+ ?x) with (String c (pre +:+ x)).
      rewrite exec_cons.
      destruct (ZoneRE.at_head (String c _)); [by eexists | exact IH].
Qed.

End ZoneREFacts.

(** ** The monad *)

Section MonadFacts.
Context {Ev A S : Type}.

Lemma foldM_cons (body : S → A → M Ev S) (x : A) (l : list A) (s : S) (w : Watcher) :
  foldM body (x :: l) s w =
  match body s x w with
  | (Ok s1, w1, t1) => let '(r, w2, t2) := foldM body l s1 w1 in (r, w2, t1 ++ t2)
  | (Err e, w1, t1) => (Err e, w1, t1)
  | (Thrown e, w1, t1) => (Thrown e, w1, t1)
  end.
Proof. reflexivity. Qed.

Lemma foldM_nil (body : S → A → M Ev S) (s : S) (w : Watcher) :
  foldM body [] s w = (Ok s, w, []).
Proof. reflexivity. Qed.

End MonadFacts.

Lemma elem_of_keys {V} (o : gmap string V) (k : string) :
  k ∈ keys o ↔ is_Some (o !! k).
Proof.
  unfold keys. rewrite list_elem_of_fmap. split.
  - intros [[k' v] [-> H]]. apply elem_of_map_to_list in H. by exists v.
  - intros [v H]. exists (k, v). split; [done|]. by apply elem_of_map_to_list.
Qed.

Lemma NoDup_keys {V} (o : gmap string V) : NoDup (keys o).
Proof. apply NoDup_fst_map_to_list. Qed.

(** ** The network usage collector *)

Section NetworkFacts.
Context (env : Env).

Lemma scan_link_unfold (boot : Z) (usage : NetworkMap) (link : LinkStat) (w : Watcher) :
  scan_link env boot usage link w =
  match ZoneRE.exec (link_name link) with
  | None => (Ok usage, w, [])
  | Some (zoneid, linkname) =>
      match getZoneById env (Str.decimal zoneid) with
      | Error e => (Thrown e, w, [CallGetZoneById (Str.decimal zoneid)])
      | Value zonename =>
          (Ok (<[zonename := <[linkname := sample_of boot link]>
                               (default ∅ (usage !! zonename))]> usage),
           w, [CallGetZoneById (Str.decimal zoneid)])
      end
  end.
Proof.
  unfold scan_link. destruct (ZoneRE.exec _) as [[zoneid linkname]|]; [|done].
  unfold mbind, M_bind, bind, tell, throw, mret, M_ret, ret.
  destruct (getZoneById env _) as [e|zonename]; [done|].
  unfold sample_of. destruct (usage !! zonename) eqn:E; simpl.
  - by rewrite E.
  - by rewrite lookup_insert_eq, insert_insert_eq.
Qed.

Lemma sample_at_insert (usage : NetworkMap) (zn ln zn' ln' : string) (s : NetSample) :
  sample_at (<[zn := <[ln := s]> (default ∅ (usage !! zn))]> usage) zn' ln' =
  if decide (zn = zn' ∧ ln = ln') then Some s else sample_at usage zn' ln'.
Proof.
  unfold sample_at. destruct (decide (zn = zn')) as [<-|Hz].
  - rewrite lookup_insert_eq. simpl. destruct (decide (ln = ln')) as [<-|Hl].
    + rewrite lookup_insert_eq. by rewrite decide_True.
    + rewrite lookup_insert_ne by done.
      rewrite decide_False; [|intros [_ ?]; done].
      destruct (usage !! zn); done.
  - rewrite lookup_insert_ne by done.
    rewrite decide_False; [done|intros [? _]; done].
Qed.

(** What a scan that runs to its end has done: the watcher is untouched,
    every matched statistic was resolved and has a sample, samples stored
    before stay, and every sample is an old one or that of a matched
    statistic. *)
Lemma scan_ok (boot : Z) (l : list LinkStat) :
  ∀ usage w usage' w' t,
    foldM (scan_link env boot) l usage w = (Ok usage', w', t) →
    w' = w ∧
    (∀ link zoneid linkname,
        link ∈ l → ZoneRE.exec (link_name link) = Some (zoneid, linkname) →
        ∃ zonename, getZoneById env (Str.decimal zoneid) = Value zonename ∧
                    is_Some (sample_at usage' zonename linkname)) ∧
    (∀ zn ln, is_Some (sample_at usage zn ln) → is_Some (sample_at usage' zn ln)) ∧
    (∀ zn ln s, sample_at usage' zn ln = Some s →
        sample_at usage zn ln = Some s ∨
        ∃ link zoneid, link ∈ l ∧
          ZoneRE.exec (link_name link) = Some (zoneid, ln) ∧
          getZoneById env (Str.decimal zoneid) = Value zn ∧
          s = sample_of boot link).
Proof.
  induction l as [|x l IH]; intros usage w usage' w' t E.
  - rewrite foldM_nil in E. injection E as <- <- <-.
    split_and!; [done | | done | by left].
    intros link ?? Hin. by apply elem_of_nil in Hin.
  - rewrite foldM_cons, scan_link_unfold in E.
    destruct (ZoneRE.exec (link_name x)) as [[zoneid linkname]|] eqn:Ex.
    + destruct (getZoneById env (Str.decimal zoneid)) as [e|zonename] eqn:Ez; [done|].
      destruct (foldM _ l _ w) as [[r w2] t2] eqn:El.
      injection E as -> -> <-.
      destruct (IH _ _ _ _ _ El) as (-> & Hall & Hkeep & Hfrom).
      assert (is_Some (sample_at usage' zonename linkname)) as Hx.
      { apply Hkeep. rewrite sample_at_insert, decide_True by done. by eexists. }
      split_and!; [done | | |].
      * intros link zid ln [->|Hin]%elem_of_cons Hm.
        -- rewrite Ex in Hm. injection Hm as <- <-. by exists zonename.
        -- by apply (Hall link).
      * intros zn ln Hs. apply Hkeep. rewrite sample_at_insert.
        by case_decide; [eexists|].
      * intros zn ln s Hs. destruct (Hfrom zn ln s Hs) as [Hs'|(link & zid & Hin & ?)].
        -- rewrite sample_at_insert in Hs'. case_decide as Hd.
           ++ destruct Hd as [<- <-]. injection Hs' as <-.
              right. exists x, zoneid. split; [left|done].
           ++ by left.
        -- right. exists link, zid. split; [by right|done].
    + destruct (foldM _ l _ w) as [[r w2] t2] eqn:El.
      injection E as -> -> <-.
      destruct (IH _ _ _ _ _ El) as (-> & Hall & Hkeep & Hfrom).
      split_and!; [done | | done |].
      * intros link zid ln [->|Hin]%elem_of_cons Hm; [congruence|].
        by apply (Hall link).
      * intros zn ln s Hs. destruct (Hfrom zn ln s Hs) as [?|(link & zid & Hin & ?)].
        -- by left.
        -- right. exists link, zid. split; [by right|done].
Qed.

(** A scan neither reads nor writes the watcher, and it never hands an
    error to a callback. *)
Lemma scan_pure (boot : Z) (l : list LinkStat) :
  ∀ usage, ∃ r t,
    (∀ w, foldM (scan_link env boot) l usage w = (r, w, t)) ∧ ∀ e, r ≠ Err e.
Proof.
  induction l as [|x l IH]; intros usage.
  - by exists (Ok usage), [].
  - destruct (ZoneRE.exec (link_name x)) as [[zoneid linkname]|] eqn:Ex.
    + destruct (getZoneById env (Str.decimal zoneid)) as [e|zonename] eqn:Ez.
      * exists (Thrown e), [CallGetZoneById (Str.decimal zoneid)]. split; [|done].
        intros w. by rewrite foldM_cons, scan_link_unfold, Ex, Ez.
      * destruct (IH (<[zonename := <[linkname := sample_of boot x]>
                                      (default ∅ (usage !! zonename))]> usage))
          as (r & t & Hr & Hne).
        exists r, (CallGetZoneById (Str.decimal zoneid) :: t). split; [|done].
        intros w. by rewrite foldM_cons, scan_link_unfold, Ex, Ez, Hr.
    + destruct (IH usage) as (r & t & Hr & Hne).
      exists r, t. split; [|done].
      intros w. by rewrite foldM_cons, scan_link_unfold, Ex, Hr.
Qed.

Lemma scan_frame (boot : Z) (l : list LinkStat) :
  ∀ usage w, (foldM (scan_link env boot) l usage w).1.2 = w ∧
             ∀ e, (foldM (scan_link env boot) l usage w).1.1 ≠ Err e.
Proof.
  intros usage w. destruct (scan_pure boot l usage) as (r & t & Hr & Hne).
  by rewrite Hr.
Qed.

(** A matched statistic whose zone id does not resolve makes the scan
    throw. *)
Lemma scan_unresolved (boot : Z) (l : list LinkStat) usage w link zoneid linkname e :
  link ∈ l → ZoneRE.exec (link_name link) = Some (zoneid, linkname) →
  getZoneById env (Str.decimal zoneid) = Error e →
  ∃ e' t, foldM (scan_link env boot) l usage w = (Thrown e', w, t).
Proof.
  intros Hin Hm He.
  destruct (scan_frame boot l usage w) as [Hw Hne].
  destruct (foldM (scan_link env boot) l usage w) as [[r w'] t] eqn:E.
  simpl in Hw, Hne. subst w'.
  destruct r as [usage'|e'|e'].
  - destruct (scan_ok _ _ _ _ _ _ _ E) as (_ & Hall & _).
    destruct (Hall link zoneid linkname Hin Hm) as (zn & Hz & _). congruence.
  - by destruct (Hne e').
  - by eexists _, _.
Qed.

Lemma updateNetworkUsage_unfold (w : Watcher) :
  updateNetworkUsage env w =
  match bootTime env with
  | Error e => (Err e, w, [CallBootTime])
  | Value boot =>
      match scan_links env boot (kstat_read env) w with
      | (Ok usage, w1, t) =>
          (Ok tt, set_network usage w1, CallBootTime :: CallKstatRead :: t)
      | (Err e, w1, t) => (Err e, w1, CallBootTime :: CallKstatRead :: t)
      | (Thrown e, w1, t) => (Thrown e, w1, CallBootTime :: CallKstatRead :: t)
      end
  end.
Proof.
  unfold updateNetworkUsage, mbind, M_bind, bind, tell, fail, modify.
  destruct (bootTime env) as [e|boot]; [done|].
  destruct (scan_links env boot (kstat_read env) w) as [[[usage|e|e] w1] t];
    simpl; by rewrite ?app_nil_r.
Qed.

(** How the update ends: with the map that the scan built stored, or with
    the watcher as it was. *)
Lemma updateNetworkUsage_cases (w : Watcher) :
  match updateNetworkUsage env w with
  | (Ok _, w', _) =>
      ∃ boot usage t,
        bootTime env = Value boot ∧
        scan_links env boot (kstat_read env) w = (Ok usage, w, t) ∧
        w' = set_network usage w
  | (_, w', _) => w' = w
  end.
Proof.
  rewrite updateNetworkUsage_unfold.
  destruct (bootTime env) as [e|boot]; [done|].
  pose proof (scan_frame boot (reverse (kstat_read env)) ∅ w) as [Hw _].
  fold (scan_links env boot (kstat_read env)) in Hw.
  destruct (scan_links env boot (kstat_read env) w) as [[[usage|e|e] w1] t] eqn:Hs;
    simpl in Hw; subst w1; [|done..].
  by exists boot, usage, t.
Qed.

(** C10: the network map is assigned once, after the boot time was read
    and the whole scan has succeeded, and then it is the map the scan built
    from the empty one, whatever the map was before; when the update ends
    with an error or an exception the network map, like the rest of the
    watcher, is what it was. *)
Theorem updateNetworkUsage_atomic (w : Watcher) :
  match updateNetworkUsage env w with
  | (Ok _, w', _) =>
      ∃ boot usage t,
        bootTime env = Value boot ∧
        scan_links env boot (kstat_read env) Watcher_new = (Ok usage, Watcher_new, t) ∧
        network w' = usage ∧ vms w' = vms w ∧ disk w' = disk w
  | (_, w', _) => network w' = network w ∧ w' = w
  end.
Proof.
  pose proof (updateNetworkUsage_cases w) as H.
  destruct (updateNetworkUsage env w) as [[[[]|e|e] w'] t]; [|by subst..].
  destruct H as (boot & usage & t' & Hb & Hs & ->).
  exists boot, usage, t'. split_and!; [done| |done..].
  unfold scan_links in *.
  destruct (scan_pure boot (reverse (kstat_read env)) ∅) as (r & t0 & Hr & _).
  rewrite Hr in Hs. injection Hs as -> ->. apply Hr.
Qed.

(** C7: when the update succeeds, a statistic has a sample in the new
    network map, under the instance its zone id resolves to and under its
    link name, exactly if its name holds the shape [z<zoneid>_<linkname>];
    and every sample of the map is that of such a statistic, so a name
    without the shape leaves no sample. *)
Theorem sample_recorded_iff_pattern (w w' : Watcher) (t : list Effect) :
  updateNetworkUsage env w = (Ok tt, w', t) →
  (∀ link, link ∈ kstat_read env →
     (has_zone_link (link_name link) ↔
      ∃ zoneid linkname zonename,
        ZoneRE.exec (link_name link) = Some (zoneid, linkname) ∧
        getZoneById env (Str.decimal zoneid) = Value zonename ∧
        is_Some (sample_at (network w') zonename linkname))) ∧
  (∀ zonename linkname sample,
     sample_at (network w') zonename linkname = Some sample →
     ∃ link zoneid boot,
       link ∈ kstat_read env ∧ has_zone_link (link_name link) ∧
       ZoneRE.exec (link_name link) = Some (zoneid, linkname) ∧
       getZoneById env (Str.decimal zoneid) = Value zonename ∧
       bootTime env = Value boot ∧ sample = sample_of boot link).
Proof.
  intros E. pose proof (updateNetworkUsage_cases w) as H. rewrite E in H.
  destruct H as (boot & usage & t' & Hb & Hs & ->).
  apply scan_ok in Hs as (_ & Hall & _ & Hfrom). simpl. split.
  - intros link Hin. split.
    + intros [[zoneid linkname] Hm]%exec_is_Some.
      destruct (Hall link zoneid linkname) as (zn & ? & ?); [by apply elem_of_reverse|done|].
      by exists zoneid, linkname, zn.
    + intros (zoneid & linkname & _ & Hm & _). apply exec_is_Some. by eexists.
  - intros zn ln s Hsample.
    destruct (Hfrom zn ln s Hsample) as [Hold|(link & zoneid & Hin & Hm & Hz & ->)].
    + unfold sample_at in Hold. by rewrite lookup_empty in Hold.
    + exists link, zoneid, boot. split_and!; try done.
      * by apply elem_of_reverse.
      * apply exec_is_Some. by eexists.
Qed.

(** A zone id that does not resolve ends the update, and with it the
    cycle, by an exception: the watcher is left as it was and nothing is
    emitted or logged. *)
Lemma updateNetworkUsage_unresolved (w : Watcher) boot link zoneid linkname e :
  bootTime env = Value boot →
  link ∈ kstat_read env →
  ZoneRE.exec (link_name link) = Some (zoneid, linkname) →
  getZoneById env (Str.decimal zoneid) = Error e →
  ∃ e' t, updateNetworkUsage env w = (Thrown e', w, t) ∧
          gatherStateAllZones env w = (w, During Network <$> t).
Proof.
  intros Hb Hin Hm He.
  destruct (scan_unresolved boot (reverse (kstat_read env)) ∅ w link zoneid linkname e)
    as (e' & t & Hs); [by apply elem_of_reverse|done..|].
  assert (updateNetworkUsage env w = (Thrown e', w, CallBootTime :: CallKstatRead :: t)) as Hu.
  { rewrite updateNetworkUsage_unfold, Hb. unfold scan_links. by rewrite Hs. }
  eexists _, _. split; [done|].
  unfold gatherStateAllZones, pipeline, mbind, M_bind, bind, stage.
  rewrite Hu. simpl. by rewrite app_nil_r.
Qed.

End NetworkFacts.

Section NetworkCases.

Lemma sample_recorded_iff_pattern_witness :
  let w' := (updateNetworkUsage Sample.quiet Watcher_new).1.2 in
  (has_zone_link "z1_net0" ↔
   ∃ zoneid linkname zonename,
     ZoneRE.exec "z1_net0" = Some (zoneid, linkname) ∧
     getZoneById Sample.quiet (Str.decimal zoneid) = Value zonename ∧
     is_Some (sample_at (network w') zonename linkname)) ∧
  (has_zone_link "e1000g0" ↔
   ∃ zoneid linkname zonename,
     ZoneRE.exec "e1000g0" = Some (zoneid, linkname) ∧
     getZoneById Sample.quiet (Str.decimal zoneid) = Value zonename ∧
     is_Some (sample_at (network w') zonename linkname)).
Proof.
  intros w'.
  destruct (sample_recorded_iff_pattern Sample.quiet Watcher_new w'
              (updateNetworkUsage Sample.quiet Watcher_new).2) as [H _].
  - evaluate.
  - split.
    + apply (H (Sample.link "z1_net0" 5000000000)). right. left.
    + apply (H (Sample.link "e1000g0" 3000000000)). left.
Defined.



Lemma updateNetworkUsage_unresolved_witness :
  ∃ e' t,
    updateNetworkUsage Sample.unresolved Watcher_new = (Thrown e', Watcher_new, t) ∧
    gatherStateAllZones Sample.unresolved Watcher_new = (Watcher_new, During Network <$> t).
Proof.
  apply (updateNetworkUsage_unresolved Sample.unresolved Watcher_new 1000000000
           (Sample.link "z2_net0" 6000000000) "2" "net0"
           "getzonenamebyid: Invalid argument").
  - reflexivity.
  - right. left.
  - evaluate.
  - evaluate.
Defined.

(** C3 fails on the code: the offset, in nanoseconds, is divided by 10^9
    and added to a count of milliseconds.  With boot time 1000000000 s and
    a link created 5 s after boot, the recorded counter start is 5 ms
    after boot, where boot time plus offset is 5 s after boot. *)
Theorem counter_start_off_by_units :
  sample_at (network (updateNetworkUsage Sample.quiet Watcher_new).1.2) "a" "net0"
  = Some {| sent_bytes := 10; received_bytes := 20;
            counter_start := "2001-09-09T01:46:40.005Z" |} ∧
  counter_start_ms 1000000000 5000000000 = 1000000000 * 1000 + 5 ∧
  counter_start_ms_spec 1000000000 5000000000 = (1000000000 + 5) * 1000 ∧
  JSDate.toISOString (counter_start_ms_spec 1000000000 5000000000)
  = "2001-09-09T01:46:45.000Z".
Proof. split_and!; evaluate. Qed.

(** C8 fails on the code: the zone id of [z2_net0] does not resolve, the
    lookup throws inside the scan, no network map is stored (the link
    [z1_net0] of the live zone is not recorded either) and the cycle stops
    there: no later stage runs and nothing is emitted. *)
Theorem unresolved_zone_id_aborts_cycle :
  updateNetworkUsage Sample.unresolved Watcher_new
  = (Thrown "getzonenamebyid: Invalid argument", Watcher_new,
     [CallBootTime; CallKstatRead; CallGetZoneById 2]) ∧
  gatherStateAllZones Sample.unresolved Watcher_new
  = (Watcher_new, [During Network CallBootTime; During Network CallKstatRead;
                   During Network (CallGetZoneById 2)]) ∧
  emitted (gatherStateAllZones Sample.unresolved Watcher_new).2 = [].
Proof. split_and!; evaluate. Qed.

End NetworkCases.

(** ** The disk usage collector *)

Section DiskFacts.

Lemma startsWith_spec (a str : string) :
  startsWith a str = true ↔ ∃ tail, a = str +:+ tail.
Proof.
  unfold startsWith, Str.slice0. rewrite String.eqb_eq. revert a.
  induction str as [|c p IH]; intros a; simpl.
  - split; [intros _; by exists a|]. intros _. by destruct a.
  - destruct a as [|x a]; simpl.
    + split; [done|]. by intros [tail ?].
    + split.
      * intros [= -> H]. apply IH in H as [tail ->]. by exists tail.
      * intros [tail [= -> ->]]. f_equal. apply IH. by exists tail.
Qed.




Lemma parseInt_idemp (v : jsval) : parseInt (parseInt v) = parseInt v.
Proof.
  destruct v as [s| |]; [|done..]. simpl.
  destruct (match skip_space s with EmptyString => _ | String _ _ => _ end) as [negative body].
  destruct (Str.span_digits body) as [[|] ?]; done.
Qed.

Lemma parseInt_not_sentinel (v : jsval) : parseInt v ≠ VStr "-".
Proof.
  destruct v as [s| |]; [|done..]. simpl.
  destruct (match skip_space s with EmptyString => _ | String _ _ => _ end) as [negative body].
  destruct (Str.span_digits body) as [[|] ?]; done.
Qed.

Lemma span_digits_all (s : string) :
  Str.all_digits s → Str.span_digits s = (s, EmptyString).
Proof.
  induction s as [|c t IH]; simpl; [done|]. intros [-> Ht]. by rewrite (IH Ht).
Qed.

(** A run of decimal digits parses to the number it spells. *)
Lemma parseInt_digits (ds : string) :
  ds ≠ EmptyString → Str.all_digits ds → parseInt (VStr ds) = VNum (Str.decimal ds).
Proof.
  destruct ds as [|c t]; [done|]. intros _ Hd.
  pose proof Hd as [Hc _]. unfold parseInt.
  assert (skip_space (String c t) = String c t) as ->.
  { cbn [skip_space]. replace (is_space c) with false; [done|].
    unfold Str.is_digit in Hc. unfold is_space.
    apply andb_true_iff in Hc as [Hc _]. apply Nat.leb_le in Hc.
    destruct (Nat.eqb_spec (nat_of_ascii c) 32) as [E1|_]; [lia|].
    destruct (Nat.leb_spec (nat_of_ascii c) 13) as [E3|_]; [lia|].
    by rewrite andb_false_r. }
  destruct (Ascii.eqb_spec c "-") as [->|_]; [done|].
  destruct (Ascii.eqb_spec c "+") as [->|_]; [done|].
  by rewrite (span_digits_all _ Hd).
Qed.

Lemma coerce_value_idemp (k : string) (v : jsval) :
  coerce_value k (coerce_value k v) = coerce_value k v.
Proof.
  unfold coerce_value.
  destruct (bool_decide (v ≠ VStr "-")) eqn:Hv, (bool_decide (k ∈ numKeys)) eqn:Hk;
    simpl; rewrite ?Hv, ?Hk; simpl; try done.
  rewrite bool_decide_true by apply parseInt_not_sentinel. simpl.
  apply parseInt_idemp.
Qed.

Lemma coerce_key_lookup (o : Props) (x k : string) :
  coerce_key o x !! k = if decide (k = x) then coerce_value k <$> o !! k else o !! k.
Proof.
  unfold coerce_key, coerce_value. case_decide as Hk.
  - subst x. destruct (o !! k) as [v|] eqn:E; [|by rewrite E].
    simpl. destruct (_ && _); [by rewrite lookup_insert_eq|done].
  - destruct (o !! x) as [v|]; [|done].
    destruct (_ && _); [by rewrite lookup_insert_ne|done].
Qed.

Lemma foldl_coerce_key (l : list string) :
  NoDup l → ∀ (o : Props) k,
    foldl coerce_key o l !! k =
    if decide (k ∈ l) then coerce_value k <$> o !! k else o !! k.
Proof.
  induction 1 as [|x l Hx Hl IH]; intros o k; cbn [foldl].
  - case_decide as H; [by apply elem_of_nil in H | done].
  - rewrite IH, !coerce_key_lookup.
    destruct (decide (k = x)) as [->|Hk].
    + rewrite decide_False by done. by rewrite decide_True by left.
    + destruct (decide (k ∈ l)).
      * by rewrite decide_True by by right.
      * rewrite decide_False; [done|]. by intros [?|?]%elem_of_cons.
Qed.

(** [add] rewrites every property by [coerce_value] and nothing else. *)
Lemma coerce_props_lookup (o : Props) (k : string) :
  coerce_props o !! k = coerce_value k <$> o !! k.
Proof.
  unfold coerce_props. rewrite foldl_coerce_key by apply NoDup_keys.
  case_decide as Hk; [done|].
  destruct (o !! k) as [v|] eqn:E; [|done].
  destruct Hk. apply elem_of_keys. by exists v.
Qed.

Lemma coerce_props_idemp (o : Props) : coerce_props (coerce_props o) = coerce_props o.
Proof.
  apply map_eq. intros k. rewrite !coerce_props_lookup.
  destruct (o !! k); simpl; [|done]. by rewrite coerce_value_idemp.
Qed.

Context (props : Datasets).

Lemma mirrors_refl : mirrors props props.
Proof. intros d. by left. Qed.

Lemma mirrors_coerce (ds : Datasets) (d : string) :
  mirrors props ds → coerce_props <$> ds !! d = coerce_props <$> props !! d.
Proof.
  intros H. destruct (H d) as [->| ->]; [done|].
  destruct (props !! d); simpl; [|done]. by rewrite coerce_props_idemp.
Qed.

Lemma mirrors_is_Some (ds : Datasets) (d : string) :
  mirrors props ds → is_Some (ds !! d) ↔ is_Some (props !! d).
Proof.
  intros H. destruct (H d) as [->| ->]; [done|]. by rewrite fmap_is_Some.
Qed.

Lemma disk_entry_insert (dk : DiskMap) (uuid d d' : string) (o : Props) :
  disk_entry (<[uuid := <[d := o]> (default ∅ (dk !! uuid))]> dk) uuid d' =
  if decide (d' = d) then Some o else disk_entry dk uuid d'.
Proof.
  unfold disk_entry. rewrite lookup_insert_eq. simpl. case_decide as Hd.
  - subst. by rewrite lookup_insert_eq.
  - rewrite lookup_insert_ne by done. by destruct (dk !! uuid).
Qed.

(** [add(d)] for the instance [uuid]. *)
Lemma add_spec (uuid d : string) (dk : DiskMap) (ds : Datasets) :
  mirrors props ds →
  ∃ dk' ds',
    add uuid d (dk, ds) = (dk', ds') ∧ mirrors props ds' ∧
    (∀ u, u ≠ uuid → dk' !! u = dk !! u) ∧
    ∀ d', disk_entry dk' uuid d' =
          entry_after props (disk_entry dk uuid d') (bool_decide (d' = d)) d'.
Proof.
  intros Hm. unfold add.
  pose proof (mirrors_coerce ds d Hm) as Hc.
  destruct (ds !! d) as [o|] eqn:Ed.
  - destruct (props !! d) as [o0|] eqn:Ep; [|done]. injection Hc as Hc.
    eexists _, _. split; [done|]. split_and!.
    + intros d'. destruct (decide (d' = d)) as [->|Hd].
      * right. by rewrite lookup_insert_eq, Ep, Hc.
      * rewrite lookup_insert_ne by done. apply Hm.
    + intros u Hu. by rewrite lookup_insert_ne.
    + intros d'. rewrite disk_entry_insert. unfold entry_after.
      case_decide as Hd.
      * subst d'. rewrite bool_decide_true by done. by rewrite Ep, Hc.
      * by rewrite bool_decide_false.
  - destruct (props !! d) eqn:Ep; [done|].
    eexists _, _. split; [done|]. split_and!; [done..|].
    intros d'. unfold entry_after. case_bool_decide as Hd; [|done].
    subst d'. by rewrite Ep.
Qed.

Lemma entry_after_twice (old : option Props) (b1 b2 : bool) (d : string) :
  entry_after props (entry_after props old b1 d) b2 d = entry_after props old (b1 || b2) d.
Proof. unfold entry_after. destruct b1, b2, (props !! d); done. Qed.

(** One turn of the loop over the datasets, for an instance with a
    config. *)
Lemma match_dataset_spec (uuid d : string) (vm : VmObj) (dk : DiskMap) (ds : Datasets) :
  is_Some (vm_config vm) → mirrors props ds →
  ∃ dk' ds',
    match_dataset uuid vm (dk, ds) d = Some (dk', ds') ∧ mirrors props ds' ∧
    (∀ u, u ≠ uuid → dk' !! u = dk !! u) ∧
    ∀ d', disk_entry dk' uuid d' =
          entry_after props (disk_entry dk uuid d')
            (bool_decide (d' = d) && attaches vm d') d'.
Proof.
  intros [c Hc] Hm. unfold match_dataset, attaches. rewrite Hc.
  assert (∀ (b : bool) dk0 ds0, mirrors props ds0 →
    ∃ dk' ds', (if b then add uuid d (dk0, ds0) else (dk0, ds0)) = (dk', ds') ∧
      mirrors props ds' ∧ (∀ u, u ≠ uuid → dk' !! u = dk0 !! u) ∧
      ∀ d', disk_entry dk' uuid d' =
            entry_after props (disk_entry dk0 uuid d') (bool_decide (d' = d) && b) d')
    as Hstep.
  { intros b dk0 ds0 Hm0. destruct b.
    - destruct (add_spec uuid d dk0 ds0 Hm0) as (dk' & ds' & ? & ? & ? & He).
      exists dk', ds'. split_and!; [done..|].
      intros d'. by rewrite He, andb_true_r.
    - exists dk0, ds0. split_and!; [done..|].
      intros d'. by rewrite andb_false_r. }
  destruct (Hstep (startsWith d (zonepath_of c)) dk ds Hm)
    as (dk1 & ds1 & -> & Hm1 & Hf1 & He1).
  destruct (Hstep (startsWith d (pool_of c +:+ "/cores/" +:+ vm_uuid vm)) dk1 ds1 Hm1)
    as (dk2 & ds2 & -> & Hm2 & Hf2 & He2).
  exists dk2, ds2. split_and!; [done..| |].
  - intros u Hu. by rewrite Hf2, Hf1.
  - intros d'. rewrite He2, He1, entry_after_twice. f_equal.
    case_bool_decide as Hd; [subst d'|]; simpl; done.
Qed.

(** The whole loop over the datasets. *)
Lemma match_datasets_spec (uuid : string) (vm : VmObj) (l : list string) :
  is_Some (vm_config vm) →
  ∀ dk ds, mirrors props ds →
    ∃ dk' ds',
      match_datasets uuid vm l (dk, ds) = (dk', ds', true) ∧ mirrors props ds' ∧
      (∀ u, u ≠ uuid → dk' !! u = dk !! u) ∧
      ∀ d', disk_entry dk' uuid d' =
            entry_after props (disk_entry dk uuid d')
              (bool_decide (d' ∈ l) && attaches vm d') d'.
Proof.
  intros Hc. induction l as [|d l IH]; intros dk ds Hm; cbn [match_datasets].
  - exists dk, ds. split_and!; [done..|]. intros d'.
    case_bool_decide as H; [by apply elem_of_nil in H|done].
  - destruct (match_dataset_spec uuid d vm dk ds Hc Hm)
      as (dk1 & ds1 & -> & Hm1 & Hf1 & He1).
    destruct (IH dk1 ds1 Hm1) as (dk2 & ds2 & -> & Hm2 & Hf2 & He2).
    exists dk2, ds2. split_and!; [done..| |].
    + intros u Hu. by rewrite Hf2, Hf1.
    + intros d'. rewrite He2, He1, entry_after_twice. f_equal.
      rewrite <- andb_orb_distrib_l. f_equal.
      rewrite <- bool_decide_or. apply bool_decide_ext. by rewrite elem_of_cons.
Qed.

Lemma entry_after_listed (ds : Datasets) (old : option Props) (b : bool) (d : string) :
  mirrors props ds →
  entry_after props old (bool_decide (d ∈ keys ds) && b) d = entry_after props old b d.
Proof.
  intros Hm. unfold entry_after. case_bool_decide as Hd; [done|]. simpl.
  destruct b; [|done]. destruct (props !! d) eqn:Ep; [|done].
  destruct Hd. apply elem_of_keys, (mirrors_is_Some ds d Hm). by rewrite Ep.
Qed.

Lemma disk_entry_fresh (dk : DiskMap) (uuid u d : string) :
  dk !! uuid = None → disk_entry (<[uuid := ∅]> dk) u d = disk_entry dk u d.
Proof.
  intros Hn. unfold disk_entry. destruct (decide (u = uuid)) as [->|Hu].
  - by rewrite lookup_insert_eq, Hn.
  - by rewrite lookup_insert_ne.
Qed.

(** The iterator of the disk collector, when it does not throw. *)
Lemma disk_of_vm_ok (uuid : string) (ds ds' : Datasets) (w w' : Watcher) t :
  mirrors props ds →
  disk_of_vm ds uuid w = (Ok ds', w', t) →
  vms w' = vms w ∧ network w' = network w ∧ mirrors props ds' ∧
  ∀ u d, disk_entry (disk w') u d =
         entry_after props (disk_entry (disk w) u d)
           (bool_decide (u = uuid) && attached_by (vms w) u d) d.
Proof.
  intros Hm. unfold disk_of_vm, attached_by.
  destruct (vms w !! uuid) as [vm|] eqn:Ev.
  - set (dk := match disk w !! uuid with None => _ | Some _ => _ end).
    assert (∀ u d, disk_entry dk u d = disk_entry (disk w) u d) as Hdk.
    { intros u d. unfold dk. destruct (disk w !! uuid) eqn:E; [done|].
      by apply disk_entry_fresh. }
    destruct (vm_config vm) as [c|] eqn:Ec.
    + assert (is_Some (vm_config vm)) as Hc by by rewrite Ec.
      destruct (match_datasets_spec uuid vm (keys ds) Hc dk ds Hm)
        as (dk2 & ds2 & -> & Hm2 & Hf & He).
      intros [= <- <- <-]. simpl. split_and!; [done..|].
      intros u d. destruct (decide (u = uuid)) as [->|Hu].
      * rewrite bool_decide_true by done. simpl.
        rewrite He, Ev, Hdk. by apply entry_after_listed.
      * rewrite bool_decide_false by done. simpl.
        unfold disk_entry. rewrite Hf by done. apply (Hdk u d).
    + destruct (keys ds) as [|d0 l]; cbn [match_datasets];
        [|unfold match_dataset; by rewrite Ec].
      intros [= <- <- <-]. simpl. split_and!; [done..|].
      intros u d. rewrite Hdk. unfold entry_after.
      case_bool_decide; simpl; [subst u; rewrite Ev; unfold attaches|];
        by rewrite ?Ec.
  - intros [= <- <- <-]. split_and!; [done..|].
    intros u d. unfold entry_after.
    case_bool_decide; simpl; [subst u; by rewrite Ev|done].
Qed.

Lemma foldM_disk_of_vm_ok (l : list string) :
  ∀ ds ds' w w' t,
    mirrors props ds →
    foldM disk_of_vm l ds w = (Ok ds', w', t) →
    vms w' = vms w ∧ network w' = network w ∧ mirrors props ds' ∧
    ∀ u d, disk_entry (disk w') u d =
           entry_after props (disk_entry (disk w) u d)
             (bool_decide (u ∈ l) && attached_by (vms w) u d) d.
Proof.
  induction l as [|x l IH]; intros ds ds' w w' t Hm E.
  - rewrite foldM_nil in E. injection E as <- <- <-. split_and!; [done..|].
    intros u d. case_bool_decide as H; [by apply elem_of_nil in H|done].
  - rewrite foldM_cons in E.
    destruct (disk_of_vm ds x w) as [[[ds1|e|e] w1] t1] eqn:E1; [|done..].
    destruct (foldM disk_of_vm l ds1 w1) as [[r w2] t2] eqn:E2.
    injection E as -> -> <-.
    destruct (disk_of_vm_ok _ _ _ _ _ _ Hm E1) as (Hv1 & Hn1 & Hm1 & He1).
    destruct (IH _ _ _ _ _ Hm1 E2) as (Hv2 & Hn2 & Hm2 & He2).
    split_and!; [congruence..|done|].
    intros u d. rewrite He2, He1, Hv1, entry_after_twice. f_equal.
    rewrite <- andb_orb_distrib_l. f_equal.
    rewrite <- bool_decide_or. apply bool_decide_ext. rewrite elem_of_cons. tauto.
Qed.

End DiskFacts.

Section DiskCollector.
Context (env : Env) (props : Datasets).

(** What a disk collection that read the listing [props] and did not throw
    leaves: the registry and the network map as they were, and under every
    instance the datasets it attaches, with their properties coerced,
    over whatever was stored there before. *)
Lemma updateDisk_ok (w w' : Watcher) (t : list Effect) :
  zfs_get env = Value props →
  updateDisk env w = (Ok tt, w', t) →
  vms w' = vms w ∧ network w' = network w ∧
  ∀ u d, disk_entry (disk w') u d =
         entry_after props (disk_entry (disk w) u d) (attached_by (vms w) u d) d.
Proof.
  intros Hz. unfold updateDisk, mbind, M_bind, bind, tell, read, mret, M_ret, ret.
  rewrite Hz.
  destruct (foldM disk_of_vm (keys (vms w)) props w) as [[[ds'|e|e] w1] t1] eqn:E;
    [|done..].
  intros [= <- <-].
  destruct (foldM_disk_of_vm_ok props _ _ _ _ _ _ (mirrors_refl props) E)
    as (Hv & Hn & _ & He).
  split_and!; [done..|]. intros u d. rewrite He. f_equal.
  unfold attached_by. destruct (vms w !! u) eqn:Eu.
  - rewrite bool_decide_true; [done|]. apply elem_of_keys. by rewrite Eu.
  - by rewrite andb_false_r.
Qed.


(** C6: in the properties stored for a dataset that the collection
    attaches to an instance, a value equal to ['-'] is still ['-'], a
    property that is not one of the five numeric ones is what it was, and a
    numeric property with another value is [parseInt] of that value: the
    number it spells when it is a run of decimal digits.  No property is
    added. *)
Theorem attached_properties_coerced (w w' : Watcher) (t : list Effect)
    (uuid d : string) (vm : VmObj) (o : Props) :
  zfs_get env = Value props →
  updateDisk env w = (Ok tt, w', t) →
  vms w !! uuid = Some vm → props !! d = Some o → attaches vm d = true →
  ∃ o', disk_entry (disk w') uuid d = Some o' ∧
    ∀ k, (o !! k = None → o' !! k = None) ∧
         ∀ v, o !! k = Some v →
           (v = VStr "-" → o' !! k = Some (VStr "-")) ∧
           (k ∉ numKeys → o' !! k = Some v) ∧
           (k ∈ numKeys → v ≠ VStr "-" → o' !! k = Some (parseInt v)) ∧
           (∀ ds, k ∈ numKeys → v = VStr ds → ds ≠ EmptyString →
                  Str.all_digits ds → o' !! k = Some (VNum (Str.decimal ds))).
Proof.
  intros Hz E Hv Hp Ha.
  destruct (updateDisk_ok w w' t Hz E) as (_ & _ & He).
  exists (coerce_props o). split.
  - rewrite He. unfold entry_after, attached_by. by rewrite Hv, Ha, Hp.
  - intros k. rewrite coerce_props_lookup. split; [by intros ->|].
    intros v ->. simpl. unfold coerce_value. split_and!.
    + intros ->. by rewrite bool_decide_false by by intros [].
    + intros Hk. by rewrite (bool_decide_false (k ∈ numKeys)), andb_false_r.
    + intros Hk Hs. by rewrite !bool_decide_true.
    + intros ds Hk -> Hne Hd. rewrite !bool_decide_true; [|done|].
      * simpl andb. cbv iota. by rewrite parseInt_digits.
      * intros [= ->]. by destruct Hd.
Qed.

End DiskCollector.

Section DiskCases.


Lemma attached_properties_coerced_witness :
  ∃ o', disk_entry (disk Sample.collected) "a" "pool0/zones/a" = Some o' ∧
        o' !! "used" = Some (VNum 1024) ∧
        o' !! "available" = Some (VStr "-") ∧
        o' !! "type" = Some (VStr "filesystem").
Proof.
  destruct (attached_properties_coerced Sample.quiet Sample.datasets
    Sample.enumerated Sample.collected (updateDisk Sample.quiet Sample.enumerated).2
    "a" "pool0/zones/a" Sample.vm_a (Sample.props "pool0/zones/a" "1024" "10240"))
    as (o' & Ho & Hk); [evaluate..|].
  exists o'. split; [exact Ho|]. split_and!.
  - destruct (Hk "used") as [_ H]. destruct (H (VStr "1024")) as (_ & _ & _ & Hd).
    + evaluate.
    + apply (Hd "1024"); [left|reflexivity|discriminate|repeat split].
  - destruct (Hk "available") as [_ H]. destruct (H (VStr "-")) as (Hs & _).
    + evaluate.
    + by apply Hs.
  - destruct (Hk "type") as [_ H]. destruct (H (VStr "filesystem")) as (_ & Hn & _).
    + evaluate.
    + apply Hn. intros Hin.
      repeat (apply elem_of_cons in Hin as [Hin|Hin]; [discriminate|]).
      by apply elem_of_nil in Hin.
Defined.

End DiskCases.

(** ** What the stages keep *)

Section Preserves.
Context (R : Watcher → Watcher → Prop) `{!Reflexive R, !Transitive R} {Ev : Type}.

Lemma preserves_ret {A} (a : A) : preserves R (mret a : M Ev A).
Proof. intros w. simpl. reflexivity. Qed.

Lemma preserves_tell (e : Ev) : preserves R (tell e).
Proof. intros w. simpl. reflexivity. Qed.

Lemma preserves_fail {A} (e : string) : preserves R (fail e : M Ev A).
Proof. intros w. simpl. reflexivity. Qed.

Lemma preserves_throw {A} (e : string) : preserves R (throw e : M Ev A).
Proof. intros w. simpl. reflexivity. Qed.

Lemma preserves_read {A} (f : Watcher → A) : preserves R (read f : M Ev A).
Proof. intros w. simpl. reflexivity. Qed.

Lemma preserves_modify (f : Watcher → Watcher) :
  (∀ w, R w (f w)) → preserves R (modify f : M Ev unit).
Proof. intros H w. apply H. Qed.

Lemma preserves_bind {A B} (m : M Ev A) (k : A → M Ev B) :
  preserves R m → (∀ a, preserves R (k a)) → preserves R (m ≫= k).
Proof.
  intros Hm Hk w. unfold mbind, M_bind, bind. specialize (Hm w).
  destruct (m w) as [[[a|e|e] w1] t1]; simpl in *; [|done..].
  specialize (Hk a w1). destruct (k a w1) as [[r w2] t2]. simpl in *.
  by etrans.
Qed.

Lemma preserves_foldM {A S} (body : S → A → M Ev S) (l : list A) :
  (∀ s x, x ∈ l → preserves R (body s x)) → ∀ s, preserves R (foldM body l s).
Proof.
  induction l as [|x l IH]; intros Hb s.
  - apply preserves_ret.
  - cbn [foldM]. apply preserves_bind.
    + apply Hb. by left.
    + intros s'. apply IH. intros s'' y Hy. apply Hb. by right.
Qed.

Lemma preserves_each {A} (iterator : A → M Ev unit) (arr : list A) :
  (∀ x, x ∈ arr → preserves R (iterator x)) → preserves R (each iterator arr).
Proof.
  induction arr as [|x arr IH]; intros Hi.
  - apply preserves_ret.
  - intros w. cbn [each]. pose proof (Hi x ltac:(by left) w) as Hx.
    assert (preserves R (each iterator arr)) as Hrest.
    { apply IH. intros y Hy. apply Hi. by right. }
    destruct (iterator x w) as [[[a|e|e] w1] t1]; simpl in *; [| |done].
    + specialize (Hrest w1). destruct (each iterator arr w1) as [[r w2] t2].
      simpl in *. by etrans.
    + specialize (Hrest w1). destruct (each iterator arr w1) as [[r w2] t2].
      simpl in *. by etrans.
Qed.

End Preserves.

Lemma preserves_stage (R : Watcher → Watcher → Prop) {A} (s : Stage) (m : M Effect A) :
  preserves R m → preserves R (stage s m).
Proof.
  intros H w. unfold stage. specialize (H w). by destruct (m w) as [[r w'] t].
Qed.

Global Instance grows_refl : Reflexive grows.
Proof. by intros w. Qed.

Global Instance grows_trans : Transitive grows.
Proof.
  intros w1 w2 w3 (Hv1 & Hd1 & Hn1) (Hv2 & Hd2 & Hn2). split_and!.
  - intros u H. by apply Hv2, Hv1.
  - intros u d H. by apply Hd2, Hd1.
  - congruence.
Qed.

Global Instance untouched_refl (uuid : string) : Reflexive (untouched uuid).
Proof. by intros w. Qed.

Global Instance untouched_trans (uuid : string) : Transitive (untouched uuid).
Proof. unfold untouched. intros w1 w2 w3 H1 H2. congruence. Qed.

(** Peels the binds of a computation off a [preserves] goal and closes the
    steps that leave the watcher alone. *)
Ltac keeps :=
  repeat first
    [ apply preserves_ret; apply _
    | apply preserves_tell; apply _
    | apply preserves_fail; apply _
    | apply preserves_throw; apply _
    | apply preserves_read; apply _
    | apply preserves_bind; [apply _| |intros ?] ].

Section StagesKeep.
Context (env : Env).


(** It writes no entry but that of the zone it visits. *)
Lemma onVm_untouched (uuid : string) (z : ZoneEntry) :
  z_name z ≠ uuid → preserves (untouched uuid) (onVm env z).
Proof.
  intros Hz. unfold onVm. destruct (String.eqb _ _); keeps.
  - apply preserves_modify. intros w. unfold untouched. simpl.
    by rewrite lookup_insert_ne.
  - destruct (getZoneState env _).
    + destruct (no_such_zone _); keeps.
    + apply preserves_modify. intros w. unfold untouched. simpl.
      by rewrite lookup_alter_ne.
  - destruct (vmGet env _); keeps; apply preserves_modify; intros w.
    + unfold untouched. simpl. by rewrite lookup_alter_ne.
    + done.
Qed.

(** The global zone is passed over: no registry entry, no accessor call. *)
Lemma global_zone_skipped (uuid dataset : string) (w : Watcher) :
  onVm env {| z_name := "global"; z_uuid := uuid; z_dataset := dataset |} w
  = (Ok tt, w, []).
Proof. reflexivity. Qed.




(** The disk collector only adds datasets to the disk map, however it
    ends, and leaves the registry and the network map alone. *)
Lemma add_mono (uuid d : string) (dk : DiskMap) (ds : Datasets) (u d' : string) :
  is_Some (disk_entry dk u d') → is_Some (disk_entry (add uuid d (dk, ds)).1 u d').
Proof.
  unfold add. destruct (ds !! d); [|done]. simpl.
  destruct (decide (u = uuid)) as [->|Hu].
  - rewrite disk_entry_insert. by case_decide.
  - unfold disk_entry. by rewrite lookup_insert_ne.
Qed.

Lemma add_if_mono (b : bool) (uuid d : string) (st : DiskMap * Datasets) (u d' : string) :
  is_Some (disk_entry st.1 u d') →
  is_Some (disk_entry (if b then add uuid d st else st).1 u d').
Proof. destruct b, st; [apply add_mono|done]. Qed.

Lemma match_datasets_mono (uuid : string) (vm : VmObj) (l : list string) :
  ∀ st u d',
    is_Some (disk_entry st.1 u d') →
    is_Some (disk_entry (match_datasets uuid vm l st).1.1 u d').
Proof.
  induction l as [|d l IH]; intros st u d' H; cbn [match_datasets]; [done|].
  unfold match_dataset. destruct (vm_config vm) as [c|]; [|done].
  by apply IH, add_if_mono, add_if_mono.
Qed.

Lemma disk_of_vm_grows (ds : Datasets) (uuid : string) :
  preserves (fun w w' => grows w w' ∧ vms w' = vms w) (disk_of_vm ds uuid).
Proof.
  intros w. unfold disk_of_vm. destruct (vms w !! uuid) as [vm|]; [|done].
  set (dk := match disk w !! uuid with None => _ | Some _ => _ end).
  pose proof (match_datasets_mono uuid vm (keys ds) (dk, ds)) as Hm.
  destruct (match_datasets uuid vm (keys ds) (dk, ds)) as [[dk' ds'] b].
  simpl in *. split; [|done]. split_and!; [done| |done].
  intros u d H. apply Hm. unfold dk.
  destruct (disk w !! uuid) eqn:E; [done|]. by rewrite disk_entry_fresh.
Qed.

Global Instance grows_same_refl : Reflexive (fun w w' => grows w w' ∧ vms w' = vms w).
Proof. by intros w. Qed.

Global Instance grows_same_trans : Transitive (fun w w' => grows w w' ∧ vms w' = vms w).
Proof.
  intros w1 w2 w3 [H1 E1] [H2 E2]. split; [by etrans|congruence].
Qed.

Lemma updateDisk_grows :
  preserves (fun w w' => grows w w' ∧ vms w' = vms w) (updateDisk env).
Proof.
  unfold updateDisk. keeps. destruct (zfs_get env); keeps.
  apply preserves_foldM; [apply _..|]. intros s x _. apply disk_of_vm_grows.
Qed.

(** The join reads the watcher and writes nothing. *)
Lemma transform_reads : preserves eq transform.
Proof.
  unfold transform. keeps. apply preserves_foldM; [apply _..|].
  intros out vm _. unfold transform_one. keeps.
  match goal with |- preserves _ (match ?o with _ => _ end) => destruct o end; keeps.
  unfold transformVm. destruct (vm_config _); keeps.
Qed.

End StagesKeep.

(** ** The cycle *)

Section CycleFacts.
Context (env : Env).

Lemma emitted_app (t1 t2 : list CycleEvent) : emitted (t1 ++ t2) = emitted t1 ++ emitted t2.
Proof. apply omap_app. Qed.

Lemma emitted_during (s : Stage) (t : list Effect) : emitted (During s <$> t) = [].
Proof. induction t as [|e t IH]; [done|]. exact IH. Qed.

Lemma emitted_updates (snaps : list Snapshot) : emitted (VmUpdate <$> snaps) = snaps.
Proof. induction snaps as [|x l IH]; [done|]. simpl. by f_equal. Qed.

Lemma gatherStateAllZones_state (w : Watcher) :
  (gatherStateAllZones env w).1 = (pipeline env w).1.2.
Proof.
  unfold gatherStateAllZones. by destruct (pipeline env w) as [[[[]|e|e] w'] t].
Qed.






Lemma preserves_impl {Ev A} (R R' : Watcher → Watcher → Prop) (m : M Ev A) :
  (∀ w w', R w w' → R' w w') → preserves R m → preserves R' m.
Proof. intros H Hm w. apply H, Hm. Qed.




End CycleFacts.

Section CycleCases.



End CycleCases.


(** * Further properties of the code *)

(** ** The scheduler: boundaries and re-arming *)

Section SchedulerMore.

Lemma fire_time_window (interval now : Z) :
  0 < interval → 0 ≤ now + Scheduler.offset * 1000 →
  Scheduler.fire_time interval now - interval * 1000
    ≤ now + Scheduler.offset * 1000
    < Scheduler.fire_time interval now.
Proof.
  intros Hi Hn. unfold Scheduler.fire_time, Scheduler.delay.
  pose proof (Z.rem_bound_pos (Scheduler.offset * 1000 + now) (interval * 1000)) as B.
  unfold Scheduler.offset in *. lia.
Qed.






(** With an interval that is not longer than the offset the callback that
    runs at a boundary never sets the timer to the next boundary: at least
    one boundary is passed over each time. *)
Theorem short_interval_skips_boundaries (interval boundary : Z) :
  0 < interval ≤ Scheduler.offset →
  0 ≤ boundary → boundary mod (interval * 1000) = 0 →
  boundary + 2 * (interval * 1000) ≤ Scheduler.fire_time interval boundary.
Proof.
  unfold Scheduler.offset. intros Hi HF Hmod.
  pose proof (fire_time_window interval boundary) as B.
  unfold Scheduler.offset in B.
  destruct B as [_ B]; [lia..|].
  assert (Scheduler.fire_time interval boundary mod (interval * 1000) = 0) as Hf.
  { rewrite fire_time_multiple, Z.mul_comm. apply Z_mod_mult. }
  apply Z.mod_divide in Hmod as [q Hq]; [|lia].
  apply Z.mod_divide in Hf as [k Hk]; [|lia].
  rewrite Hk in *. subst boundary.
  set (m := interval * 1000) in *.
  assert (0 < m ≤ 5000) as Hm by (unfold m; lia).
  assert ((q + 1) * m < k * m) as Hlt by lia.
  assert (q + 1 < k) as Hqk by (apply (Z.mul_lt_mono_pos_r m); lia).
  assert ((q + 2) * m ≤ k * m) by (apply Z.mul_le_mono_nonneg_r; lia).
  lia.
Qed.

Lemma short_interval_skips_boundaries_witness :
  1700000040000 + 2 * (5 * 1000) ≤ Scheduler.fire_time 5 1700000040000.
Proof.
  apply short_interval_skips_boundaries; unfold Scheduler.offset; try lia.
  reflexivity.
Defined.

End SchedulerMore.

(** ** The network usage collector: failure, duplicates, captures *)

Section NetworkMore.
Context (env : Env).

(** When the boot time cannot be read the cycle ends there: the statistics
    are not read, no zone is listed, the watcher is unchanged, nothing is
    emitted, and the final handler logs the error and the duration. *)
Theorem boot_time_failure_fails_cycle (w : Watcher) (e : string) :
  bootTime env = Error e →
  gatherStateAllZones env w = (w, [During Network CallBootTime; LogError e; LogInfo]).
Proof.
  intros Hb. unfold gatherStateAllZones, pipeline.
  unfold mbind at 1, M_bind at 1, bind at 1, stage at 1.
  by rewrite updateNetworkUsage_unfold, Hb.
Qed.



End NetworkMore.

Section PatternMore.

Lemma dot_star_id (s : string) :
  Forall (fun c => ZoneRE.is_line_terminator c = false) (String.list_ascii_of_string s) →
  ZoneRE.dot_star s = s.
Proof.
  induction s as [|c t IH]; simpl; [done|].
  intros [Hc Ht]%Forall_cons. rewrite Hc. by rewrite IH.
Qed.

Lemma dot_star_clean (s : string) :
  Forall (fun c => ZoneRE.is_line_terminator c = false)
         (String.list_ascii_of_string (ZoneRE.dot_star s)).
Proof.
  induction s as [|c t IH]; simpl; [constructor|].
  destruct (ZoneRE.is_line_terminator c) eqn:Hc; simpl; [constructor|].
  by constructor.
Qed.

Lemma decimal_from_nonneg (s : string) :
  Str.all_digits s → ∀ acc, 0 ≤ acc → 0 ≤ Str.decimal_from acc s.
Proof.
  induction s as [|c t IH]; simpl; [done|]. intros [Hc Ht] acc Hacc.
  apply IH; [done|]. unfold Str.is_digit in Hc. unfold Str.digit_val.
  apply andb_true_iff in Hc as [Hc _]. apply Nat.leb_le in Hc. lia.
Qed.

(** On a name that is a ['z'], a run of decimal digits, an underscore and a
    rest without line terminator, the match gives the digits as the zone id
    and the whole rest as the link name. *)
Theorem exec_link_name (zoneid rest : string) :
  zoneid ≠ EmptyString → Str.all_digits zoneid →
  Forall (fun c => ZoneRE.is_line_terminator c = false) (String.list_ascii_of_string rest) →
  ZoneRE.exec (String "z" (zoneid +:+ String "_" rest)) = Some (zoneid, rest).
Proof.
  intros Hne Hd Hr. rewrite exec_cons, (at_head_shape zoneid rest Hne Hd).
  by rewrite dot_star_id.
Qed.

Lemma exec_link_name_witness :
  ZoneRE.exec (String "z" ("17" +:+ String "_" "net0")) = Some ("17", "net0").
Proof.
  apply exec_link_name; [discriminate|repeat split|repeat constructor].
Defined.

(** Whatever name matches, the zone id captured is a non-empty run of
    decimal digits, so that the number made of it is not negative, and the
    link name captured holds no line terminator. *)
Theorem exec_captures (name zoneid linkname : string) :
  ZoneRE.exec name = Some (zoneid, linkname) →
  zoneid ≠ EmptyString ∧ Str.all_digits zoneid ∧ 0 ≤ Str.decimal zoneid ∧
  Forall (fun c => ZoneRE.is_line_terminator c = false)
         (String.list_ascii_of_string linkname).
Proof.
  intros (pre & rest & _ & Hne & Hd & ->)%exec_Some. split_and!; [done..| |].
  - by apply decimal_from_nonneg.
  - apply dot_star_clean.
Qed.

Lemma exec_captures_witness :
  "4" ≠ EmptyString ∧ Str.all_digits "4" ∧ 0 ≤ Str.decimal "4" ∧
  Forall (fun c => ZoneRE.is_line_terminator c = false)
         (String.list_ascii_of_string "a_b").
Proof. apply (exec_captures "zz3z4_a_b"). reflexivity. Defined.

End PatternMore.

Section NetworkMoreCases.

Lemma boot_time_failure_fails_cycle_witness :
  gatherStateAllZones Sample.no_boot_time Sample.collected
  = (Sample.collected,
     [During Network CallBootTime; LogError "kstat: boot_time unavailable"; LogInfo]).
Proof. apply boot_time_failure_fails_cycle. reflexivity. Defined.


End NetworkMoreCases.

(** ** The instance enumerator: entries, tables, failures *)

Section EnumeratorMore.
Context (env : Env).

Lemma not_global (z : ZoneEntry) :
  z_name z ≠ "global" → String.eqb (z_name z) "global" = false.
Proof. intros H. by apply String.eqb_neq. Qed.

(** A zone that is visited without error gets a registry entry that is
    made anew: identifiers from the listing, the time of the visit, the state
    just read and the config just fetched, with its alias decoded.  Nothing
    of an entry that an earlier cycle left under the same name is kept. *)
Theorem onVm_entry_overwritten (z : ZoneEntry) (w : Watcher)
    (status : string) (vmrec : VmConfig) :
  z_name z ≠ "global" →
  getZoneState env (z_name z) = Value status →
  vmGet env (z_name z) = Value vmrec →
  (onVm env z w).1.1 = Ok tt ∧
  vms (onVm env z w).1.2 !! z_name z =
    Some {| vm_uuid := z_name z; vm_os_uuid := z_uuid z;
            vm_timestamp := JSDate.toISOString (clock env (z_name z));
            vm_status := Some status;
            vm_config := Some (decode_alias env vmrec) |}.
Proof.
  intros Hg Hs Hv. unfold onVm. rewrite (not_global z Hg).
  unfold mbind, M_bind, bind, modify, tell. simpl. rewrite Hs, Hv. simpl.
  split; [done|]. by rewrite !lookup_alter_eq, lookup_insert_eq.
Qed.

(** After a visit that ends without error the three cross-reference tables
    agree on the zone: its name leads to its dataset (the dataset path
    without one leading slash), the dataset back to the dataset path, and the
    dataset path back to the name. *)
Theorem onVm_tables_round_trip (z : ZoneEntry) (w w' : Watcher) (t : list Effect) :
  z_name z ≠ "global" →
  onVm env z w = (Ok tt, w', t) →
  ∃ dataset,
    dataset = Str.strip_leading_slash (z_dataset z) ∧
    vmsToDataset w' !! z_name z = Some dataset ∧
    vmDatasetsToPath w' !! dataset = Some (z_dataset z) ∧
    vmPathsToZone w' !! z_dataset z = Some (z_name z).
Proof.
  intros Hg. unfold onVm. rewrite (not_global z Hg).
  unfold mbind, M_bind, bind, modify, tell, throw, fail. simpl.
  destruct (getZoneState env (z_name z)) as [msg|status]; simpl.
  - destruct (no_such_zone msg); simpl; [|done].
    destruct (vmGet env (z_name z)) as [e|vmrec]; simpl; [done|].
    intros [= <- _]. eexists. split; [done|]. simpl.
    by rewrite !lookup_insert_eq.
  - destruct (vmGet env (z_name z)) as [e|vmrec]; simpl; [done|].
    intros [= <- _]. eexists. split; [done|]. simpl.
    by rewrite !lookup_insert_eq.
Qed.

(** A visit that throws ends here for every watcher it starts from. *)
Lemma onVm_throws (z : ZoneEntry) (msg : string) (w : Watcher) :
  z_name z ≠ "global" →
  getZoneState env (z_name z) = Error msg → no_such_zone msg = false →
  (onVm env z w).1.1 = Thrown msg.
Proof.
  intros Hg Hs Hn. unfold onVm. rewrite (not_global z Hg).
  unfold mbind, M_bind, bind, modify, tell, throw. simpl. by rewrite Hs, Hn.
Qed.

Lemma each_thrown {Ev A} (iterator : A → M Ev unit) (arr : list A) (x : A) :
  x ∈ arr → (∀ w, ∃ e, (iterator x w).1.1 = Thrown e) →
  ∀ w, ∃ e, (each iterator arr w).1.1 = Thrown e.
Proof.
  intros Hin Hx. induction arr as [|y arr IH]; intros w.
  - by apply elem_of_nil in Hin.
  - cbn [each]. apply elem_of_cons in Hin as [<-|Hin].
    + destruct (Hx w) as [e He].
      destruct (iterator x w) as [[[a|e'|e'] w1] t1]; simpl in He; [done..|].
      by exists e'.
    + destruct (iterator y w) as [[[a|e'|e'] w1] t1].
      * destruct (IH Hin w1) as [e He].
        destruct (each iterator arr w1) as [[r w2] t2]. simpl in *. by exists e.
      * destruct (IH Hin w1) as [e He].
        destruct (each iterator arr w1) as [[r w2] t2]. simpl in *. subst r.
        by exists e.
      * by exists e'.
Qed.

(** A state lookup that fails for another reason than "no such zone
    configured" is rethrown: the enumeration ends by the exception, whatever
    the other zones of the listing are, and the cycle emits nothing. *)
Theorem state_lookup_failure_throws (z : ZoneEntry) (msg : string) (w : Watcher) :
  z ∈ vmListFromFile env → z_name z ≠ "global" →
  getZoneState env (z_name z) = Error msg → no_such_zone msg = false →
  (∃ e, (updateVirtualMachines env w).1.1 = Thrown e) ∧
  emitted (gatherStateAllZones env w).2 = [].
Proof.
  intros Hin Hg Hs Hn.
  assert (∀ w0, ∃ e, (updateVirtualMachines env w0).1.1 = Thrown e) as Hthrow.
  { intros w0. unfold updateVirtualMachines, mbind, M_bind, bind, tell.
    destruct (each_thrown (onVm env) (vmListFromFile env) z Hin
                (fun w1 => ex_intro _ msg (onVm_throws z msg w1 Hg Hs Hn)) w0) as [e He].
    destruct (each (onVm env) (vmListFromFile env) w0) as [[r w2] t2].
    simpl in *. by exists e. }
  split; [apply Hthrow|].
  unfold gatherStateAllZones, pipeline, mbind, M_bind, bind, stage.
  destruct (updateNetworkUsage env w) as [[[[]|e|e] w1] t1]; simpl;
    [|rewrite ?emitted_app, ?app_nil_r, emitted_during; done..].
  destruct (Hthrow w1) as [e He].
  destruct (updateVirtualMachines env w1) as [[r w2] t2]. simpl in He. subst r.
  simpl. by rewrite ?emitted_app, ?app_nil_r, !emitted_during.
Qed.

(** A visit writes no registry entry but that of the zone visited, and none
    at all for the global zone. *)
Lemma onVm_untouched_or_global (uuid : string) (z : ZoneEntry) :
  (z_name z = uuid → uuid = "global") → preserves (untouched uuid) (onVm env z).
Proof.
  intros H. destruct (decide (z_name z = uuid)) as [E|E].
  - rewrite (H E) in E. unfold onVm. rewrite E. simpl. by intros w.
  - by apply onVm_untouched.
Qed.

Lemma updateNetworkUsage_untouched (uuid : string) :
  preserves (untouched uuid) (updateNetworkUsage env).
Proof.
  intros w. pose proof (updateNetworkUsage_cases env w) as H.
  destruct (updateNetworkUsage env w) as [[[[]|e|e] w'] t]; simpl; [|by subst..].
  by destruct H as (? & ? & ? & _ & _ & ->).
Qed.

(** A cycle writes a registry entry only for the zones of its listing that
    are not the global zone. *)
Lemma pipeline_untouched (uuid : string) :
  (∀ z, z ∈ vmListFromFile env → z_name z = uuid → uuid = "global") →
  preserves (untouched uuid) (pipeline env).
Proof.
  intros H. unfold pipeline. keeps.
  - apply preserves_stage, updateNetworkUsage_untouched.
  - apply preserves_stage. unfold updateVirtualMachines. keeps.
    apply preserves_each; [apply _..|]. intros z Hz.
    apply onVm_untouched_or_global. by apply H.
  - apply preserves_stage.
    apply (preserves_impl _ _ _
             (fun w w' (H : grows w w' ∧ vms w' = vms w) => f_equal (.!! uuid) (proj2 H))
             (updateDisk_grows env)).
  - apply preserves_stage. apply (preserves_impl eq); [by intros ?? ->|].
    apply transform_reads.
  - by intros w.
Qed.

(** The global zone never gets a registry entry: whatever the listing, the
    accessors and the outcome of the cycle, what the registry holds under
    the name "global" is what it held before the cycle; for a watcher that
    started empty that is nothing. *)
Theorem global_zone_never_registered (w : Watcher) :
  vms (gatherStateAllZones env w).1 !! "global" = vms w !! "global".
Proof.
  rewrite gatherStateAllZones_state. by apply (pipeline_untouched "global").
Qed.

End EnumeratorMore.

Section EnumeratorMoreCases.

Lemma onVm_entry_overwritten_witness :
  (onVm Sample.quiet (Sample.zone "a") Sample.stuck).1.1 = Ok tt ∧
  vms (onVm Sample.quiet (Sample.zone "a") Sample.stuck).1.2 !! "a" =
    Some {| vm_uuid := "a"; vm_os_uuid := z_uuid (Sample.zone "a");
            vm_timestamp := JSDate.toISOString (clock Sample.quiet "a");
            vm_status := Some "running";
            vm_config := Some (decode_alias Sample.quiet (Sample.cfg "a")) |}.
Proof.
  apply (onVm_entry_overwritten Sample.quiet (Sample.zone "a") Sample.stuck
           "running" (Sample.cfg "a")); [discriminate|reflexivity..].
Defined.

Lemma onVm_tables_round_trip_witness :
  ∃ dataset,
    dataset = Str.strip_leading_slash (z_dataset (Sample.zone "a")) ∧
    vmsToDataset (onVm Sample.quiet (Sample.zone "a") Watcher_new).1.2 !! "a"
      = Some dataset ∧
    vmDatasetsToPath (onVm Sample.quiet (Sample.zone "a") Watcher_new).1.2 !! dataset
      = Some (z_dataset (Sample.zone "a")) ∧
    vmPathsToZone (onVm Sample.quiet (Sample.zone "a") Watcher_new).1.2
      !! z_dataset (Sample.zone "a") = Some "a".
Proof.
  apply (onVm_tables_round_trip Sample.quiet (Sample.zone "a") Watcher_new _
           (onVm Sample.quiet (Sample.zone "a") Watcher_new).2); [discriminate|].
  evaluate.
Defined.

Lemma state_lookup_failure_throws_witness :
  (∃ e, (updateVirtualMachines Sample.broken_state Watcher_new).1.1 = Thrown e) ∧
  emitted (gatherStateAllZones Sample.broken_state Watcher_new).2 = [].
Proof.
  apply (state_lookup_failure_throws Sample.broken_state (Sample.zone "b")
           "zone_get_state: Permission denied").
  - right. right. left.
  - discriminate.
  - reflexivity.
  - reflexivity.
Defined.

End EnumeratorMoreCases.

(** ** The disk usage collector: records, failures, repetition, sharing *)

Section DiskMore.
Context (env : Env) (props : Datasets).

Lemma add_keeps_record (uuid d : string) (st : DiskMap * Datasets) (u : string) :
  is_Some (st.1 !! u) → is_Some ((add uuid d st).1 !! u).
Proof.
  destruct st as [dk ds]. unfold add. destruct (ds !! d); [|done]. simpl.
  rewrite lookup_insert_is_Some. destruct (decide (uuid = u)); auto.
Qed.

Lemma match_datasets_keeps_record (uuid : string) (vm : VmObj) (l : list string) :
  ∀ st u, is_Some (st.1 !! u) → is_Some ((match_datasets uuid vm l st).1.1 !! u).
Proof.
  induction l as [|d l IH]; intros st u H; cbn [match_datasets]; [done|].
  unfold match_dataset. destruct (vm_config vm) as [c|]; [|done].
  apply IH.
  destruct (startsWith d (pool_of c +:+ "/cores/" +:+ vm_uuid vm));
    destruct (startsWith d (zonepath_of c)); auto using add_keeps_record.
Qed.

Lemma disk_of_vm_record (ds : Datasets) (x : string) (w : Watcher) :
  let w1 := (disk_of_vm ds x w).1.2 in
  (is_Some (vms w !! x) → is_Some (disk w1 !! x)) ∧
  (∀ u, is_Some (disk w !! u) → is_Some (disk w1 !! u)).
Proof.
  unfold disk_of_vm. destruct (vms w !! x) as [vm|] eqn:Ev; simpl.
  - set (dk := match disk w !! x with None => _ | Some _ => _ end).
    pose proof (match_datasets_keeps_record x vm (keys ds) (dk, ds)) as Hk.
    destruct (match_datasets x vm (keys ds) (dk, ds)) as [[dk' ds'] b].
    simpl in *. split.
    + intros _. apply Hk. unfold dk. destruct (disk w !! x) eqn:E.
      * by rewrite E.
      * by rewrite lookup_insert_eq.
    + intros u Hu. apply Hk. unfold dk. destruct (disk w !! x) eqn:E; [done|].
      rewrite lookup_insert_is_Some. destruct (decide (x = u)); auto.
  - split; [by intros []|done].
Qed.

Lemma foldM_disk_of_vm_record (l : list string) :
  ∀ ds w ds' w' t,
    foldM disk_of_vm l ds w = (Ok ds', w', t) →
    ∀ u, (u ∈ l ∧ is_Some (vms w !! u)) ∨ is_Some (disk w !! u) →
         is_Some (disk w' !! u).
Proof.
  induction l as [|x l IH]; intros ds w ds' w' t E u Hu.
  - injection E as _ <- _.
    destruct Hu as [[Hu _]|Hu]; [by apply elem_of_nil in Hu|done].
  - rewrite foldM_cons in E.
    pose proof (disk_of_vm_record ds x w) as [Hx Hkeep].
    pose proof (disk_of_vm_grows ds x w) as [_ Hv].
    destruct (disk_of_vm ds x w) as [[[ds1|e|e] w1] t1]; simpl in *; [|done..].
    destruct (foldM disk_of_vm l ds1 w1) as [[r w2] t2] eqn:E2.
    injection E as -> -> _.
    apply (IH _ _ _ _ _ E2). rewrite Hv.
    destruct Hu as [[[->|Hu]%elem_of_cons Hs]|Hu]; auto.
Qed.

(** After a disk collection that did not throw every instance of the
    registry has a disk-usage record, be it an empty one: an instance that
    matches no dataset is not left without a record. *)
Theorem every_instance_has_disk_record (w w' : Watcher) (t : list Effect) (uuid : string) :
  zfs_get env = Value props →
  updateDisk env w = (Ok tt, w', t) →
  is_Some (vms w !! uuid) → is_Some (disk w' !! uuid).
Proof.
  intros Hz. unfold updateDisk, mbind, M_bind, bind, tell, read, mret, M_ret, ret.
  rewrite Hz. intros E Hu.
  destruct (foldM disk_of_vm (keys (vms w)) props w) as [[[ds'|e|e] w1] t1] eqn:E1;
    [|done..].
  injection E as <- _.
  apply (foldM_disk_of_vm_record _ _ _ _ _ _ E1).
  left. split; [|done]. by apply elem_of_keys.
Qed.

Lemma keys_nonempty (ds : Datasets) (d : string) :
  mirrors props ds → is_Some (props !! d) → keys ds ≠ [].
Proof.
  intros Hm Hd%(mirrors_is_Some props ds d Hm)%elem_of_keys E.
  rewrite E in Hd. by apply elem_of_nil in Hd.
Qed.

Lemma disk_of_vm_with_config (ds : Datasets) (uuid : string) (w : Watcher) :
  mirrors props ds →
  (∀ vm, vms w !! uuid = Some vm → is_Some (vm_config vm)) →
  ∃ ds', (disk_of_vm ds uuid w).1.1 = Ok ds'.
Proof.
  intros Hm Hc. unfold disk_of_vm. destruct (vms w !! uuid) as [vm|]; [|by eexists].
  set (dk := match disk w !! uuid with None => _ | Some _ => _ end).
  destruct (match_datasets_spec props uuid vm (keys ds) (Hc vm eq_refl) dk ds Hm)
    as (dk' & ds' & -> & _). by eexists.
Qed.

Lemma disk_of_vm_without_config (ds : Datasets) (uuid : string) (w : Watcher) (vm : VmObj) :
  vms w !! uuid = Some vm → vm_config vm = None → keys ds ≠ [] →
  (disk_of_vm ds uuid w).1.1 = Thrown undefined_config.
Proof.
  intros Hv Hc Hk. unfold disk_of_vm. rewrite Hv.
  destruct (keys ds) as [|d l]; [done|]. cbn [match_datasets].
  unfold match_dataset. by rewrite Hc.
Qed.

Lemma foldM_disk_of_vm_total (l : list string) :
  ∀ ds w,
    mirrors props ds →
    (∀ u vm, vms w !! u = Some vm → is_Some (vm_config vm)) →
    ∃ ds', (foldM disk_of_vm l ds w).1.1 = Ok ds'.
Proof.
  induction l as [|x l IH]; intros ds w Hm Hc; [by eexists|].
  rewrite foldM_cons.
  destruct (disk_of_vm_with_config ds x w Hm (Hc x)) as [ds1 E1].
  destruct (disk_of_vm ds x w) as [[r w1] t1] eqn:E. simpl in E1. subst r.
  destruct (disk_of_vm_ok props _ _ _ _ _ _ Hm E) as (Hv & _ & Hm1 & _).
  destruct (IH ds1 w1 Hm1) as [ds2 E2]; [by rewrite Hv|].
  destruct (foldM disk_of_vm l ds1 w1) as [[r w2] t2]. simpl in *. by exists ds2.
Qed.

Lemma foldM_disk_of_vm_throws (l : list string) (uuid : string) (vm : VmObj) (d : string) :
  is_Some (props !! d) → vm_config vm = None →
  ∀ ds w,
    mirrors props ds → uuid ∈ l → vms w !! uuid = Some vm →
    (foldM disk_of_vm l ds w).1.1 = Thrown undefined_config.
Proof.
  intros Hd Hc. induction l as [|x l IH]; intros ds w Hm Hin Hv.
  - by apply elem_of_nil in Hin.
  - rewrite foldM_cons.
    destruct (decide (x = uuid)) as [->|Hx].
    + pose proof (disk_of_vm_without_config ds uuid w vm Hv Hc
                    (keys_nonempty ds d Hm Hd)) as E.
      destruct (disk_of_vm ds uuid w) as [[r w1] t1]. simpl in E. by subst r.
    + apply elem_of_cons in Hin as [->|Hin]; [done|].
      destruct (disk_of_vm ds x w) as [[[ds1|e|e] w1] t1] eqn:E.
      * destruct (disk_of_vm_ok props _ _ _ _ _ _ Hm E) as (Hv1 & _ & Hm1 & _).
        specialize (IH ds1 w1 Hm1 Hin). rewrite Hv1 in IH. specialize (IH Hv).
        destruct (foldM disk_of_vm l ds1 w1) as [[r w2] t2]. simpl in *. done.
      * unfold disk_of_vm in E. destruct (vms w !! x); [|done].
        destruct (match_datasets _ _ _ _) as [[? ?] []]; done.
      * unfold disk_of_vm in E. destruct (vms w !! x) as [vm'|]; [|done].
        destruct (match_datasets _ _ _ _) as [[? ?] []]; [done|].
        by injection E as <- _ _.
Qed.

(** A registry entry without config, as a failed config fetch leaves one,
    makes the disk collection throw as soon as the listing holds a dataset:
    the read of [vm.config.zonepath] fails, and the stage never calls its
    callback. *)
Theorem updateDisk_throws_without_config (w : Watcher) (uuid d : string) (vm : VmObj) :
  zfs_get env = Value props → is_Some (props !! d) →
  vms w !! uuid = Some vm → vm_config vm = None →
  (updateDisk env w).1.1 = Thrown undefined_config.
Proof.
  intros Hz Hd Hv Hc.
  unfold updateDisk, mbind, M_bind, bind, tell, read, mret, M_ret, ret. rewrite Hz.
  pose proof (foldM_disk_of_vm_throws (keys (vms w)) uuid vm d Hd Hc props w
                (mirrors_refl props)) as H.
  destruct (foldM disk_of_vm (keys (vms w)) props w) as [[r w1] t1].
  simpl in *. rewrite H; [done| |done]. apply elem_of_keys. by rewrite Hv.
Qed.

(** Collecting twice from the same listing changes nothing the second
    time: every dataset stored under an instance after the second collection
    is the one stored after the first. *)
Theorem updateDisk_idempotent (w w1 w2 : Watcher) (t1 t2 : list Effect) :
  zfs_get env = Value props →
  updateDisk env w = (Ok tt, w1, t1) →
  updateDisk env w1 = (Ok tt, w2, t2) →
  ∀ uuid d, disk_entry (disk w2) uuid d = disk_entry (disk w1) uuid d.
Proof.
  intros Hz E1 E2 uuid d.
  destruct (updateDisk_ok env props w w1 t1 Hz E1) as (Hv1 & _ & He1).
  destruct (updateDisk_ok env props w1 w2 t2 Hz E2) as (_ & _ & He2).
  rewrite He2, He1, Hv1, entry_after_twice. by rewrite orb_diag.
Qed.

(** Matching is by prefix of the name, not by path component: an instance
    whose root path is a prefix, as a string, of the root path of another
    gets every listed dataset under the root path of that other instance
    attached too. *)
Theorem dataset_shared_by_prefix (w w' : Watcher) (t : list Effect)
    (uuid d tail : string) (vm : VmObj) (c other : VmConfig) (o : Props) :
  zfs_get env = Value props →
  updateDisk env w = (Ok tt, w', t) →
  vms w !! uuid = Some vm → vm_config vm = Some c →
  zonepath_of other = zonepath_of c +:+ tail →
  startsWith d (zonepath_of other) = true →
  props !! d = Some o →
  disk_entry (disk w') uuid d = Some (coerce_props o).
Proof.
  intros Hz E Hv Hc Hp Hs Ho.
  destruct (updateDisk_ok env props w w' t Hz E) as (_ & _ & He).
  rewrite He. unfold entry_after, attached_by, attaches. rewrite Hv, Hc, Ho.
  replace (startsWith d (zonepath_of c)) with true; [done|]. symmetry.
  apply startsWith_spec in Hs as [rest ->]. apply startsWith_spec.
  exists (tail +:+ rest). rewrite Hp. clear.
  induction (zonepath_of c) as [|a s IH]; [done|].
  change (String a s +:+ ?x) with (String a (s +:+ x)).
  change (String a ?y +:+ ?x) with (String a (y +:+ x)). by rewrite IH.
Qed.

End DiskMore.

(** When every instance of the registry has its config the disk collection
    ends without error or exception, whatever the listing holds. *)
Theorem updateDisk_succeeds_with_configs (env : Env) (w : Watcher) :
  (∀ uuid vm, vms w !! uuid = Some vm → is_Some (vm_config vm)) →
  (updateDisk env w).1.1 = Ok tt.
Proof.
  intros Hc. unfold updateDisk, mbind, M_bind, bind, tell, read, mret, M_ret, ret.
  destruct (zfs_get env) as [e|listing]; [done|].
  assert (∃ ds', (foldM disk_of_vm (keys (vms w)) listing w).1.1 = Ok ds') as [ds' H].
  { apply (foldM_disk_of_vm_total listing); [apply mirrors_refl|done]. }
  destruct (foldM disk_of_vm (keys (vms w)) listing w) as [[r w1] t1].
  simpl in H. by subst r.
Qed.

Section DiskMoreCases.

Lemma every_instance_has_disk_record_witness :
  is_Some (disk Sample.collected !! "b").
Proof.
  apply (every_instance_has_disk_record Sample.quiet Sample.datasets
           Sample.enumerated Sample.collected
           (updateDisk Sample.quiet Sample.enumerated).2 "b").
  - reflexivity.
  - evaluate.
  - exists {| vm_uuid := "b"; vm_os_uuid := "os-b";
              vm_timestamp := "2001-09-09T01:47:40.000Z";
              vm_status := Some "running"; vm_config := Some (Sample.cfg "b") |}.
    evaluate.
Defined.

Lemma updateDisk_succeeds_with_configs_witness :
  (updateDisk Sample.quiet Sample.enumerated).1.1 = Ok tt.
Proof.
  apply updateDisk_succeeds_with_configs. intros uuid vm.
  apply (map_Forall_lookup_1 (λ _ (vm : VmObj), is_Some (vm_config vm))
           (vms Sample.enumerated)).
  apply (bool_decide_unpack _). vm_cast_no_check I.
Defined.

Lemma updateDisk_throws_without_config_witness :
  (updateDisk Sample.later Sample.stuck).1.1 = Thrown undefined_config.
Proof.
  apply (updateDisk_throws_without_config Sample.later
           (delete "pool0/cores/a" (delete "pool0/zones/a" Sample.datasets))
           Sample.stuck "a" "pool0" Sample.vm_stuck).
  - reflexivity.
  - exists (Sample.props "pool0" "900" "0"). evaluate.
  - evaluate.
  - reflexivity.
Defined.

Lemma updateDisk_idempotent_witness :
  disk_entry (disk (updateDisk Sample.quiet Sample.collected).1.2) "a" "pool0/zones/a"
  = disk_entry (disk Sample.collected) "a" "pool0/zones/a".
Proof.
  apply (updateDisk_idempotent Sample.quiet Sample.datasets Sample.enumerated
           Sample.collected (updateDisk Sample.quiet Sample.collected).1.2
           (updateDisk Sample.quiet Sample.enumerated).2
           (updateDisk Sample.quiet Sample.collected).2).
  - reflexivity.
  - evaluate.
  - evaluate.
Defined.

Lemma dataset_shared_by_prefix_witness :
  disk_entry (disk Sample.crowded_collected) "a" "pool0/zones/ab"
  = Some (coerce_props (Sample.props "pool0/zones/ab" "64" "0")).
Proof.
  apply (dataset_shared_by_prefix Sample.crowded
           (<["pool0/zones/ab" := Sample.props "pool0/zones/ab" "64" "0"]> Sample.datasets)
           Sample.crowded_enumerated Sample.crowded_collected
           (updateDisk Sample.crowded Sample.crowded_enumerated).2
           "a" "pool0/zones/ab" "b" Sample.vm_a (Sample.cfg "a") (Sample.cfg "ab")).
  - reflexivity.
  - evaluate.
  - evaluate.
  - reflexivity.
  - reflexivity.
  - reflexivity.
  - evaluate.
Defined.

End DiskMoreCases.

(** ** The join and what a cycle emits *)

Section TransformMore.

Lemma transform_one_unfold (out : gmap string Snapshot) (key : string) (w : Watcher) :
  transform_one out key w =
  match vms w !! key with
  | None => (Ok out, w, [])
  | Some vm =>
      match vm_config vm with
      | None => (Thrown undefined_config, w, [])
      | Some c => (Ok (<[cfg_name c := snapshot_of w vm c]> out), w, [])
      end
  end.
Proof.
  unfold transform_one, mbind, M_bind, bind, read. simpl.
  destruct (vms w !! key) as [vm|]; [|done].
  unfold transformVm. by destruct (vm_config vm).
Qed.

Lemma foldM_transform_ok (l : list string) (w : Watcher) :
  ∀ out out' w' t,
    foldM transform_one l out w = (Ok out', w', t) →
    w' = w ∧ t = [] ∧
    (∀ k, is_Some (out !! k) → is_Some (out' !! k)) ∧
    (∀ key vm, key ∈ l → vms w !! key = Some vm →
       ∃ c, vm_config vm = Some c ∧ is_Some (out' !! cfg_name c)) ∧
    (∀ k s, out' !! k = Some s →
       out !! k = Some s ∨
       ∃ key vm c, key ∈ l ∧ vms w !! key = Some vm ∧ vm_config vm = Some c ∧
                   cfg_name c = k ∧ s = snapshot_of w vm c).
Proof.
  induction l as [|x l IH]; intros out out' w' t E.
  - injection E as <- <- <-. split_and!; auto.
    intros key vm Hin. by apply elem_of_nil in Hin.
  - rewrite foldM_cons, transform_one_unfold in E.
    destruct (vms w !! x) as [vmx|] eqn:Ex.
    + destruct (vm_config vmx) as [cx|] eqn:Ecx; [|done].
      destruct (foldM transform_one l (<[cfg_name cx := snapshot_of w vmx cx]> out) w)
        as [[r w2] t2] eqn:E2.
      injection E as -> -> <-.
      destruct (IH _ _ _ _ E2) as (-> & -> & Hkeep & Hall & Hfrom).
      split_and!; [done..| | |].
      * intros k Hk. apply Hkeep. rewrite lookup_insert_is_Some.
        destruct (decide (cfg_name cx = k)); auto.
      * intros key vm [->|Hin]%elem_of_cons Hv.
        -- rewrite Ex in Hv. injection Hv as <-. exists cx. split; [done|].
           apply Hkeep. by rewrite lookup_insert_eq.
        -- by apply (Hall key vm).
      * intros k s Hs. destruct (Hfrom k s Hs) as [Ho|(key & vm & c & Hin & ?)].
        -- destruct (decide (cfg_name cx = k)) as [<-|Hne].
           ++ rewrite lookup_insert_eq in Ho. injection Ho as <-.
              right. exists x, vmx, cx. split_and!; [apply elem_of_cons|..]; auto.
           ++ rewrite lookup_insert_ne in Ho by done. by left.
        -- right. exists key, vm, c. split; [apply elem_of_cons; auto|done].
    + destruct (foldM transform_one l out w) as [[r w2] t2] eqn:E2.
      injection E as -> -> <-.
      destruct (IH _ _ _ _ E2) as (-> & -> & Hkeep & Hall & Hfrom).
      split_and!; [done..| |].
      * intros key vm [->|Hin]%elem_of_cons Hv; [congruence|by apply (Hall key vm)].
      * intros k s Hs. destruct (Hfrom k s Hs) as [Ho|(key & vm & c & Hin & ?)].
        -- by left.
        -- right. exists key, vm, c. split; [apply elem_of_cons; auto|done].
Qed.

Lemma foldM_transform_throws (w : Watcher) (uuid : string) (vm : VmObj) :
  vms w !! uuid = Some vm → vm_config vm = None →
  ∀ l out, uuid ∈ l →
    foldM transform_one l out w = (Thrown undefined_config, w, []).
Proof.
  intros Hv Hc. induction l as [|x l IH]; intros out Hin.
  - by apply elem_of_nil in Hin.
  - rewrite foldM_cons, transform_one_unfold.
    destruct (decide (x = uuid)) as [->|Hx].
    + by rewrite Hv, Hc.
    + apply elem_of_cons in Hin as [->|Hin]; [done|].
      destruct (vms w !! x) as [vmx|]; [destruct (vm_config vmx); [|done]|];
        by rewrite (IH _ Hin).
Qed.

Lemma foldM_transform_thrown (w : Watcher) :
  ∀ l out e w' t,
    foldM transform_one l out w = (Thrown e, w', t) →
    ∃ key vm, key ∈ l ∧ vms w !! key = Some vm ∧ vm_config vm = None.
Proof.
  induction l as [|x l IH]; intros out e w' t E; [done|].
  rewrite foldM_cons, transform_one_unfold in E.
  destruct (vms w !! x) as [vmx|] eqn:Ex.
  - destruct (vm_config vmx) as [cx|] eqn:Ecx.
    + destruct (foldM transform_one l _ w) as [[r w2] t2] eqn:E2.
      injection E as -> -> <-.
      destruct (IH _ _ _ _ E2) as (key & vm & Hin & ?).
      exists key, vm. split; [apply elem_of_cons; auto|done].
    + exists x, vmx. split; [apply elem_of_cons; auto|done].
  - destruct (foldM transform_one l out w) as [[r w2] t2] eqn:E2.
    injection E as -> -> <-.
    destruct (IH _ _ _ _ E2) as (key & vm & Hin & ?).
    exists key, vm. split; [apply elem_of_cons; auto|done].
Qed.

Lemma foldM_transform_no_err (w : Watcher) (e : string) :
  ∀ l out, (foldM transform_one l out w).1.1 ≠ Err e.
Proof.
  induction l as [|x l IH]; intros out; [done|].
  rewrite foldM_cons, transform_one_unfold.
  destruct (vms w !! x) as [vmx|]; [destruct (vm_config vmx) as [cx|]; [|done]|].
  - specialize (IH (<[cfg_name cx := snapshot_of w vmx cx]> out)).
    by destruct (foldM transform_one l _ w) as [[? ?] ?].
  - specialize (IH out). by destruct (foldM transform_one l out w) as [[? ?] ?].
Qed.

Lemma transform_throws (w : Watcher) (uuid : string) (vm : VmObj) :
  vms w !! uuid = Some vm → vm_config vm = None →
  transform w = (Thrown undefined_config, w, []).
Proof.
  intros Hv Hc. unfold transform, mbind, M_bind, bind, read.
  rewrite (foldM_transform_throws w uuid vm Hv Hc); [done|].
  apply elem_of_keys. by rewrite Hv.
Qed.

Lemma transform_ok (w w' : Watcher) (out : gmap string Snapshot) (t : list Effect) :
  transform w = (Ok out, w', t) →
  w' = w ∧
  (∀ key vm, vms w !! key = Some vm →
     ∃ c, vm_config vm = Some c ∧ is_Some (out !! cfg_name c)) ∧
  (∀ k s, out !! k = Some s →
     ∃ key vm c, vms w !! key = Some vm ∧ vm_config vm = Some c ∧
                 cfg_name c = k ∧ s = snapshot_of w vm c).
Proof.
  unfold transform, mbind, M_bind, bind, read.
  destruct (foldM transform_one (keys (vms w)) ∅ w) as [[r w2] t2] eqn:E.
  intros H. injection H as -> -> <-.
  destruct (foldM_transform_ok _ _ _ _ _ _ E) as (-> & _ & _ & Hall & Hfrom).
  split_and!; [done| |].
  - intros key vm Hv. apply (Hall key vm); [|done]. apply elem_of_keys. by rewrite Hv.
  - intros k s Hs. destruct (Hfrom k s Hs) as [Ho|(key & vm & c & _ & ?)].
    + by rewrite lookup_empty in Ho.
    + by exists key, vm, c.
Qed.

(** The join is by name: when the transform returns, every instance of the
    registry has its config and a snapshot stored under the name of that
    config, and every snapshot returned is stored under its own [uuid], which
    is its [zonename], carries the format version "1", and holds, for some
    registry entry with a config of that name, the status and timestamp of
    the entry together with the network usage and the disk usage that the
    watcher holds under that name. The watcher is not written. *)
Theorem transform_joins_by_name (w w' : Watcher) (out : gmap string Snapshot)
    (t : list Effect) :
  transform w = (Ok out, w', t) →
  w' = w ∧
  (∀ key vm, vms w !! key = Some vm →
     ∃ c, vm_config vm = Some c ∧ is_Some (out !! cfg_name c)) ∧
  (∀ k s, out !! k = Some s →
     snap_uuid s = k ∧ snap_zonename s = k ∧ snap_v s = "1" ∧
     snap_network_usage s = network w !! k ∧
     snap_disk_usage s = disk w !! k ∧
     ∃ key vm, vms w !! key = Some vm ∧ vm_config vm = Some (snap_config s) ∧
               cfg_name (snap_config s) = k ∧
               snap_zonepath s = cfg_zonepath (snap_config s) ∧
               snap_os_uuid s = vm_os_uuid vm ∧
               snap_status s = vm_status vm ∧
               snap_timestamp s = vm_timestamp vm).
Proof.
  intros E. destruct (transform_ok _ _ _ _ E) as (-> & Hall & Hfrom).
  split_and!; [done..|].
  intros k s Hs. destruct (Hfrom k s Hs) as (key & vm & c & Hv & Hc & <- & ->).
  simpl. split_and!; [done..|]. by exists key, vm.
Qed.

(** The transform throws exactly when some registry entry has no config;
    it never ends with an error. *)
Theorem transform_throws_iff (w : Watcher) :
  ((transform w).1.1 = Thrown undefined_config ↔
   ∃ key vm, vms w !! key = Some vm ∧ vm_config vm = None) ∧
  (∀ e, (transform w).1.1 ≠ Err e) ∧
  (∀ e, (transform w).1.1 = Thrown e → e = undefined_config).
Proof.
  assert (∀ e, (transform w).1.1 = Thrown e →
               ∃ key vm, vms w !! key = Some vm ∧ vm_config vm = None) as Hthrown.
  { intros e. unfold transform, mbind, M_bind, bind, read.
    destruct (foldM transform_one (keys (vms w)) ∅ w) as [[r w2] t2] eqn:E.
    simpl. intros ->.
    destruct (foldM_transform_thrown _ _ _ _ _ _ E) as (key & vm & _ & ?).
    by exists key, vm. }
  split_and!.
  - split; [apply Hthrown|].
    intros (key & vm & Hv & Hc). by rewrite (transform_throws w key vm Hv Hc).
  - intros e E.
    destruct (transform w) as [[r w'] t] eqn:Et. simpl in E. subst r.
    unfold transform, mbind, M_bind, bind, read in Et.
    apply (foldM_transform_no_err w e (keys (vms w)) ∅).
    by destruct (foldM transform_one (keys (vms w)) ∅ w) as [[? ?] ?];
      injection Et as -> _ _.
  - intros e E. destruct (Hthrown e E) as (key & vm & Hv & Hc).
    rewrite (transform_throws w key vm Hv Hc) in E. by injection E.
Qed.

End TransformMore.

Section CycleMore.
Context (env : Env).

Lemma emitted_stage {A} (s : Stage) (m : M Effect A) (w : Watcher) :
  emitted (stage s m w).2 = [].
Proof.
  unfold stage. destruct (m w) as [[r w'] t]. simpl.
  rewrite emitted_app, emitted_during. by destruct r.
Qed.

(** What a cycle emits is what the transform returned on the watcher that
    the cycle leaves. *)
Lemma emitted_by_transform (w : Watcher) :
  let out := gatherStateAllZones env w in
  emitted out.2 = [] ∨
  ∃ snaps t, transform out.1 = (Ok snaps, out.1, t) ∧
             emitted out.2 = (map_to_list snaps).*2.
Proof.
  unfold gatherStateAllZones, pipeline, mbind, M_bind, bind, stage, emit_all.
  destruct (updateNetworkUsage env w) as [[[[]|e|e] w1] t1]; simpl;
    [|left; rewrite ?emitted_app, ?app_nil_r, emitted_during; done..].
  destruct (updateVirtualMachines env w1) as [[[[]|e|e] w2] t2]; simpl;
    [|left; rewrite ?emitted_app, ?app_nil_r, !emitted_during; done..].
  destruct (updateDisk env w2) as [[[[]|e|e] w3] t3]; simpl;
    [|left; rewrite ?emitted_app, ?app_nil_r, !emitted_during; done..].
  pose proof (transform_reads w3) as Hw.
  destruct (transform w3) as [[[out|e|e] w4] t4] eqn:E4; simpl in *;
    [|left; rewrite ?emitted_app, ?app_nil_r, !emitted_during; done..].
  subst w4. right. exists out, t4. split; [done|].
  rewrite !emitted_app, !emitted_during, emitted_updates. simpl.
  by rewrite app_nil_r.
Qed.

(** A cycle emits at most one snapshot for a name: the [uuid]s of the
    snapshots it emits are pairwise different. *)
Theorem one_snapshot_per_name (w : Watcher) :
  NoDup (snap_uuid <$> emitted (gatherStateAllZones env w).2).
Proof.
  destruct (emitted_by_transform w) as [->|(snaps & t & E & ->)]; [constructor|].
  destruct (transform_ok _ _ _ _ E) as (_ & _ & Hfrom).
  replace (snap_uuid <$> (map_to_list snaps).*2) with (map_to_list snaps).*1.
  { apply NoDup_fst_map_to_list. }
  rewrite <- list_fmap_compose. apply list_fmap_ext.
  intros i [k s] Hi. simpl.
  assert (snaps !! k = Some s) as Hs.
  { apply elem_of_map_to_list. by eapply list_elem_of_lookup_2. }
  destruct (Hfrom k s Hs) as (? & ? & ? & _ & _ & <- & ->). done.
Qed.

(** A cycle reports all instances or none: when it emits anything, every
    instance of the registry it leaves has a config and is reported by a
    snapshot under the name of that config, built from the network usage and
    the disk usage the watcher holds at the end of the cycle. *)
Theorem cycle_reports_all_or_none (w : Watcher) (key : string) (vm : VmObj) :
  let out := gatherStateAllZones env w in
  emitted out.2 ≠ [] →
  vms out.1 !! key = Some vm →
  ∃ c s, vm_config vm = Some c ∧ s ∈ emitted out.2 ∧
         snap_uuid s = cfg_name c ∧
         snap_network_usage s = network out.1 !! cfg_name c ∧
         snap_disk_usage s = disk out.1 !! cfg_name c.
Proof.
  intros out Hne Hv. unfold out in *. clear out.
  destruct (emitted_by_transform w) as [E|(snaps & t & E & Hem)]; [done|].
  destruct (transform_ok _ _ _ _ E) as (_ & Hall & Hfrom).
  destruct (Hall key vm Hv) as (c & Hc & [s Hs]).
  destruct (Hfrom _ s Hs) as (key' & vm' & c' & Hv' & Hc' & Hn & Heq).
  exists c, s. split; [done|]. split.
  - rewrite Hem. apply list_elem_of_fmap. exists (cfg_name c, s).
    split; [done|]. by apply elem_of_map_to_list.
  - subst s. simpl. by rewrite Hn.
Qed.

(** A registry entry without config, for a zone that the listing no longer
    holds, stops the reports: the cycle emits no snapshot at all, and it
    leaves the entry as it is, so that the same holds of every later cycle
    with such a listing. *)
Theorem config_less_entry_blocks_cycle (w : Watcher) (uuid : string) (vm : VmObj) :
  vms w !! uuid = Some vm → vm_config vm = None →
  (∀ z, z ∈ vmListFromFile env → z_name z ≠ uuid) →
  emitted (gatherStateAllZones env w).2 = [] ∧
  vms (gatherStateAllZones env w).1 !! uuid = Some vm.
Proof.
  intros Hv Hc Hl.
  assert (vms (gatherStateAllZones env w).1 !! uuid = Some vm) as Hkept.
  { rewrite gatherStateAllZones_state, <- Hv.
    apply (pipeline_untouched env uuid). intros z Hz E. by destruct (Hl z Hz). }
  split; [|done].
  destruct (emitted_by_transform w) as [E|(snaps & t & E & _)]; [done|].
  by rewrite (transform_throws _ uuid vm Hkept Hc) in E.
Qed.

End CycleMore.


Section TransformMoreCases.

Lemma transform_joins_by_name_witness :
  Sample.collected = Sample.collected ∧
  (∀ key vm, vms Sample.collected !! key = Some vm →
     ∃ c, vm_config vm = Some c ∧ is_Some (Sample.joined !! cfg_name c)) ∧
  (∀ k s, Sample.joined !! k = Some s →
     snap_uuid s = k ∧ snap_zonename s = k ∧ snap_v s = "1" ∧
     snap_network_usage s = network Sample.collected !! k ∧
     snap_disk_usage s = disk Sample.collected !! k ∧
     ∃ key vm, vms Sample.collected !! key = Some vm ∧
               vm_config vm = Some (snap_config s) ∧
               cfg_name (snap_config s) = k ∧
               snap_zonepath s = cfg_zonepath (snap_config s) ∧
               snap_os_uuid s = vm_os_uuid vm ∧
               snap_status s = vm_status vm ∧
               snap_timestamp s = vm_timestamp vm).
Proof.
  apply (transform_joins_by_name Sample.collected Sample.collected Sample.joined []).
  evaluate.
Defined.

Lemma cycle_reports_all_or_none_witness :
  ∃ c s, vm_config Sample.vm_a = Some c ∧
         s ∈ emitted (gatherStateAllZones Sample.quiet Watcher_new).2 ∧
         snap_uuid s = cfg_name c ∧
         snap_network_usage s =
           network (gatherStateAllZones Sample.quiet Watcher_new).1 !! cfg_name c ∧
         snap_disk_usage s =
           disk (gatherStateAllZones Sample.quiet Watcher_new).1 !! cfg_name c.
Proof.
  apply (cycle_reports_all_or_none Sample.quiet Watcher_new "a" Sample.vm_a).
  - intros H.
    assert (length (emitted (gatherStateAllZones Sample.quiet Watcher_new).2) = 2%nat)
      as E by evaluate.
    rewrite H in E. discriminate E.
  - evaluate.
Defined.

Lemma config_less_entry_blocks_cycle_witness :
  emitted (gatherStateAllZones Sample.later Sample.stuck).2 = [] ∧
  vms (gatherStateAllZones Sample.later Sample.stuck).1 !! "a" = Some Sample.vm_stuck.
Proof.
  apply (config_less_entry_blocks_cycle Sample.later Sample.stuck "a" Sample.vm_stuck).
  - evaluate.
  - reflexivity.
  - change (vmListFromFile Sample.later) with [Sample.global_zone; Sample.zone "b"].
    intros z [->|[->|H]%elem_of_cons]%elem_of_cons;
      [discriminate..|by apply elem_of_nil in H].
Defined.

End TransformMoreCases.

(** ** The numeric properties of a dataset *)

Section CoercionMore.




Lemma parseInt_not_text (v : jsval) : v = VNaN ∨ (∃ n, v = VNum n) ∨ (∃ s, v = VStr s) →
  parseInt v = VNaN ∨ ∃ n, parseInt v = VNum n.
Proof.
  intros _. destruct v as [s|n|]; [|right; by exists n|by left].
  unfold parseInt.
  destruct (match skip_space s with
            | String c t' => _
            | EmptyString => _
            end) as [negative body].
  destruct (Str.span_digits body) as [[|c d] r]; [by left|right; by eexists].
Qed.

(** After a disk collection the numeric properties of every dataset it
    attached hold a number, the mark "-" or NaN, and never any other text:
    a value without leading digits is stored as NaN, not kept. *)
Theorem numeric_property_never_text (env : Env) (props : Datasets) (w w' : Watcher)
    (t : list Effect) (uuid d k : string) (vm : VmObj) (o' : Props) (v : jsval) :
  zfs_get env = Value props →
  updateDisk env w = (Ok tt, w', t) →
  vms w !! uuid = Some vm → is_Some (props !! d) → attaches vm d = true →
  disk_entry (disk w') uuid d = Some o' →
  k ∈ numKeys → o' !! k = Some v →
  v = VStr "-" ∨ v = VNaN ∨ ∃ n, v = VNum n.
Proof.
  intros Hz E Hv [o Hp] Ha Ho' Hk Hkv.
  destruct (updateDisk_ok env props w w' t Hz E) as (_ & _ & He).
  rewrite He in Ho'. unfold entry_after, attached_by in Ho'.
  rewrite Hv, Ha, Hp in Ho'. injection Ho' as <-.
  rewrite coerce_props_lookup in Hkv.
  destruct (o !! k) as [v0|]; [|done]. injection Hkv as <-.
  unfold coerce_value. rewrite (bool_decide_true (k ∈ numKeys)) by done.
  rewrite andb_true_r. case_bool_decide as Hs.
  - right. apply parseInt_not_text. destruct v0; eauto.
  - left. by destruct (decide (v0 = VStr "-")).
Qed.

End CoercionMore.

Section CoercionMoreCases.


Lemma numeric_property_never_text_witness :
  VNum 1024 = VStr "-" ∨ VNum 1024 = VNaN ∨ ∃ n, VNum 1024 = VNum n.
Proof.
  apply (numeric_property_never_text Sample.quiet Sample.datasets
           Sample.enumerated Sample.collected
           (updateDisk Sample.quiet Sample.enumerated).2
           "a" "pool0/zones/a" "used" Sample.vm_a
           (coerce_props (Sample.props "pool0/zones/a" "1024" "10240")) (VNum 1024)).
  - reflexivity.
  - evaluate.
  - evaluate.
  - exists (Sample.props "pool0/zones/a" "1024" "10240"). evaluate.
  - reflexivity.
  - evaluate.
  - apply (bool_decide_unpack _). vm_cast_no_check I.
  - evaluate.
Defined.

End CoercionMoreCases.
